(** * Onymos stock trading engine: a shallow embedding of [src/main.cpp]

    The engine keeps one fixed-size order book per hash bucket of ticker
    symbols.  [addOrder] appends an order to one side of a book and
    [matchOrder] scans both sides for the best buy and the best sell and
    executes at most one fill between them.

    Modelling conventions.
    - A C++ [int] is a [Z] in the range of [is_int]; [fetch_add] and
      [fetch_sub] on [atomic<int>] wrap around ([int_wrap]).  The
      [unsigned int] accumulator of [hashTicker] wraps modulo 2^32.
    - A [const char*] argument is the [string] of its characters before the
      terminating NUL.
    - A fixed-size array is a [list] of that size, read with [!!] and
      written with [<[_:=_]>]; an index outside of the array is undefined
      behaviour in C++ and is [None] here, so every operation lives in the
      [option] monad.
    - [cout << ...] in [matchOrder] is the [Fill] the call returns.
    - The sequential functions model one thread running alone; the module
      [Threads] splits [matchOrder] into its atomic operations and
      interleaves two threads. *)

From Stdlib Require Import ZArith Ascii String List Lia.
From stdpp Require Import base tactics option list numbers.

Local Open Scope string_scope.
Local Open Scope list_scope.
Local Open Scope Z_scope.

(** ** Machine integers *)

Definition is_int (z : Z) : Prop := - 2 ^ 31 <= z < 2 ^ 31.

(** Two's complement wrap-around of a signed 32-bit integer. *)
Definition int_wrap (z : Z) : Z := (z + 2 ^ 31) mod 2 ^ 32 - 2 ^ 31.

(** Wrap-around of an [unsigned int]. *)
Definition uint_wrap (z : Z) : Z := z mod 2 ^ 32.

(** ** Constants (main.cpp, lines 13-14) *)

Definition MAX_TICKERS : Z := 1024.
Definition MAX_ORDERS_PER_SIDE : Z := 1024.

(** ** Data model (main.cpp, lines 17-41) *)

Record Order : Type := mkOrder {
  active : bool;
  isBuy : bool;
  quantity : Z;
  price : Z
}.

(** The constructor [Order()]. *)
Definition Order_init : Order := mkOrder false false 0 0.

Record OrderBook : Type := mkOrderBook {
  buyOrders : list Order;
  buyCount : Z;
  sellOrders : list Order;
  sellCount : Z
}.

(** The constructor [OrderBook()]: both counters zero, every slot built by
    [Order()]. *)
Definition OrderBook_init : OrderBook :=
  mkOrderBook (replicate (Z.to_nat MAX_ORDERS_PER_SIDE) Order_init) 0
              (replicate (Z.to_nat MAX_ORDERS_PER_SIDE) Order_init) 0.

(** The global [orderBooks] array. *)
Definition orderBooks_init : list OrderBook :=
  replicate (Z.to_nat MAX_TICKERS) OrderBook_init.

(** The line [matchOrder] prints for a fill. *)
Record Fill : Type := mkFill {
  fillTicker : string;
  matchedQuantity : Z;
  fillBuyPrice : Z;
  fillSellPrice : Z
}.

(** ** Array access *)

(** [a[i]] read: outside of the array there is no defined value. *)
Definition load {A : Type} (a : list A) (i : Z) : option A :=
  if 0 <=? i then a !! Z.to_nat i else None.

(** [a[i] = x]: outside of the array the write is undefined. *)
Definition store {A : Type} (a : list A) (i : Z) (x : A) : option (list A) :=
  if (0 <=? i) && (i <? Z.of_nat (length a))
  then Some (<[Z.to_nat i := x]> a) else None.

(** ** hashTicker (main.cpp, lines 44-50) *)

(** The cast of one character of the ticker to [unsigned int], where plain
    [char] is signed (the x86 ABI): bytes above 127 are sign-extended. *)
Definition char_to_uint (c : ascii) : Z :=
  let n := Z.of_N (N_of_ascii c) in
  if n <? 128 then n else n + (2 ^ 32 - 256).

Fixpoint hashTicker_loop (hash : Z) (ticker : string) : Z :=
  match ticker with
  | EmptyString => hash
  | String c rest => hashTicker_loop (uint_wrap (hash * 31 + char_to_uint c)) rest
  end.

Definition hashTicker (ticker : string) : Z :=
  hashTicker_loop 0 ticker mod MAX_TICKERS.

(** ** addOrder (main.cpp, lines 53-78) *)

(** The body of [addOrder] once [ob] is bound to the ticker's book.  The
    counter is bumped by [fetch_add] before the capacity test; a full side
    drops the order and returns. *)
Definition addOrder_book (orderType : string) (quantity price : Z)
    (ob : OrderBook) : option OrderBook :=
  if String.eqb orderType "Buy" then
    let pos := buyCount ob in
    let ob1 := mkOrderBook (buyOrders ob) (int_wrap (pos + 1))
                           (sellOrders ob) (sellCount ob) in
    if MAX_ORDERS_PER_SIDE <=? pos then Some ob1
    else
      buys ← store (buyOrders ob1) pos (mkOrder true true quantity price);
      Some (mkOrderBook buys (buyCount ob1) (sellOrders ob1) (sellCount ob1))
  else if String.eqb orderType "Sell" then
    let pos := sellCount ob in
    let ob1 := mkOrderBook (buyOrders ob) (buyCount ob)
                           (sellOrders ob) (int_wrap (pos + 1)) in
    if MAX_ORDERS_PER_SIDE <=? pos then Some ob1
    else
      sells ← store (sellOrders ob1) pos (mkOrder true false quantity price);
      Some (mkOrderBook (buyOrders ob1) (buyCount ob1) sells (sellCount ob1))
  else Some ob.

Definition addOrder (orderType ticker : string) (quantity price : Z)
    (orderBooks : list OrderBook) : option (list OrderBook) :=
  let idx := hashTicker ticker in
  ob ← load orderBooks idx;
  ob' ← addOrder_book orderType quantity price ob;
  store orderBooks idx ob'.

(** ** matchOrder (main.cpp, lines 81-137) *)

(** The first [for] loop: [n] iterations are left, [i] is the loop index. *)
Fixpoint scanBuy (orders : list Order) (n : nat) (i : Z)
    (bestBuyIndex bestBuyPrice : Z) : option (Z * Z) :=
  match n with
  | O => Some (bestBuyIndex, bestBuyPrice)
  | S n' =>
      o ← load orders i;
      if active o && (0 <? quantity o) && (bestBuyPrice <? price o)
      then scanBuy orders n' (i + 1) i (price o)
      else scanBuy orders n' (i + 1) bestBuyIndex bestBuyPrice
  end.

(** The second [for] loop. *)
Fixpoint scanSell (orders : list Order) (n : nat) (i : Z)
    (bestSellIndex bestSellPrice : Z) : option (Z * Z) :=
  match n with
  | O => Some (bestSellIndex, bestSellPrice)
  | S n' =>
      o ← load orders i;
      if active o && (0 <? quantity o) && (price o <? bestSellPrice)
      then scanSell orders n' (i + 1) i (price o)
      else scanSell orders n' (i + 1) bestSellIndex bestSellPrice
  end.

(** [quantity.fetch_sub(m)] followed by the test that marks an exhausted
    order inactive. *)
Definition fill_order (o : Order) (m : Z) : Order :=
  let q := int_wrap (quantity o - m) in
  mkOrder (if q =? 0 then false else active o) (isBuy o) q (price o).

Definition matchOrder_book (ticker : string) (ob : OrderBook)
    : option (OrderBook * option Fill) :=
  '(bestBuyIndex, bestBuyPrice) ←
      scanBuy (buyOrders ob) (Z.to_nat (buyCount ob)) 0 (-1) 0;
  '(bestSellIndex, bestSellPrice) ←
      scanSell (sellOrders ob) (Z.to_nat (sellCount ob)) 0 (-1) 1000000;
  if negb (bestBuyIndex =? -1) && negb (bestSellIndex =? -1)
     && (bestSellPrice <=? bestBuyPrice)
  then
    b ← load (buyOrders ob) bestBuyIndex;
    s ← load (sellOrders ob) bestSellIndex;
    let buyQty := quantity b in
    let sellQty := quantity s in
    let matched := Z.min buyQty sellQty in
    buys ← store (buyOrders ob) bestBuyIndex (fill_order b matched);
    sells ← store (sellOrders ob) bestSellIndex (fill_order s matched);
    Some (mkOrderBook buys (buyCount ob) sells (sellCount ob),
          Some (mkFill ticker matched bestBuyPrice bestSellPrice))
  else Some (ob, None).

Definition matchOrder (ticker : string) (orderBooks : list OrderBook)
    : option (list OrderBook * option Fill) :=
  let idx := hashTicker ticker in
  ob ← load orderBooks idx;
  '(ob', f) ← matchOrder_book ticker ob;
  books ← store orderBooks idx ob';
  Some (books, f).

(** ** Sequences of calls *)

(** A call made by a client thread, as [simulateOrders] makes them. *)
Inductive Call : Type :=
  | CallAdd (orderType ticker : string) (quantity price : Z)
  | CallMatch (ticker : string).

Definition call (c : Call) (orderBooks : list OrderBook)
    : option (list OrderBook * list Fill) :=
  match c with
  | CallAdd orderType ticker quantity price =>
      books ← addOrder orderType ticker quantity price orderBooks;
      Some (books, [])
  | CallMatch ticker =>
      '(books, f) ← matchOrder ticker orderBooks;
      Some (books, option_list f)
  end.

(** Runs the calls one after the other and collects the printed fills in
    the order they were printed. *)
Fixpoint run (calls : list Call) (orderBooks : list OrderBook)
    : option (list OrderBook * list Fill) :=
  match calls with
  | [] => Some (orderBooks, [])
  | c :: rest =>
      '(books1, fills1) ← call c orderBooks;
      '(books2, fills2) ← run rest books1;
      Some (books2, fills1 ++ fills2)
  end.

(** The same on a single book: the operations of one instrument. *)
Inductive BookOp : Type :=
  | Add (orderType : string) (quantity price : Z)
  | Match.

Definition book_op (ticker : string) (op : BookOp) (ob : OrderBook)
    : option (OrderBook * list Fill) :=
  match op with
  | Add orderType quantity price =>
      ob' ← addOrder_book orderType quantity price ob;
      Some (ob', [])
  | Match =>
      '(ob', f) ← matchOrder_book ticker ob;
      Some (ob', option_list f)
  end.

Fixpoint run_book (ticker : string) (ops : list BookOp) (ob : OrderBook)
    : option (OrderBook * list Fill) :=
  match ops with
  | [] => Some (ob, [])
  | op :: rest =>
      '(ob1, fills1) ← book_op ticker op ob;
      '(ob2, fills2) ← run_book ticker rest ob1;
      Some (ob2, fills1 ++ fills2)
  end.

Definition on_ticker (ticker : string) (op : BookOp) : Call :=
  match op with
  | Add orderType quantity price => CallAdd orderType ticker quantity price
  | Match => CallMatch ticker
  end.

(** ** Quantities *)

Definition total_quantity (orders : list Order) : Z :=
  foldr (λ o acc, quantity o + acc) 0 orders.

(** The orders of a side are the slots below its counter. *)
Definition remaining_buy (ob : OrderBook) : Z :=
  total_quantity (take (Z.to_nat (buyCount ob)) (buyOrders ob)).

Definition remaining_sell (ob : OrderBook) : Z :=
  total_quantity (take (Z.to_nat (sellCount ob)) (sellOrders ob)).

Definition total_matched (fills : list Fill) : Z :=
  foldr (λ f acc, matchedQuantity f + acc) 0 fills.

Definition inserted_on (side : string) (ops : list BookOp) : Z :=
  foldr (λ op acc,
           match op with
           | Add orderType quantity _ =>
               if String.eqb orderType side then quantity + acc else acc
           | Match => acc
           end) 0 ops.

Definition adds_on (side : string) (ops : list BookOp) : Z :=
  foldr (λ op acc,
           match op with
           | Add orderType _ _ =>
               if String.eqb orderType side then 1 + acc else acc
           | Match => acc
           end) 0 ops.

(** A slot takes part in matching when it is active with quantity left. *)
Definition live (o : Order) : bool := active o && (0 <? quantity o).

(** ** Two threads in matchOrder *)

Module Threads.

(** Where a thread stands inside [matchOrder].  Every step performs the
    atomic operations of the lines named; grouping several operations into
    one step only removes interleavings, so every run of this model is a
    run of the program. *)
Inductive Pc : Type :=
  | AtScan       (* lines 85-115: both scans and the test for a cross *)
  | AtLoadBuy    (* line 117 *)
  | AtLoadSell   (* lines 118-119 *)
  | AtSubBuy     (* line 122 *)
  | AtSubSell    (* line 123 *)
  | AtCheckBuy   (* lines 126-128 *)
  | AtCheckSell  (* lines 129-131 *)
  | AtPrint      (* lines 134-135 *)
  | AtEnd.

(** The local variables of [matchOrder]. *)
Record Thread : Type := mkThread {
  pc : Pc;
  bestBuyIndex : Z;
  bestSellIndex : Z;
  bestBuyPrice : Z;
  bestSellPrice : Z;
  buyQty : Z;
  sellQty : Z;
  matched : Z
}.

Definition start : Thread := mkThread AtScan (-1) (-1) 0 1000000 0 0 0.

Definition goto (p : Pc) (th : Thread) : Thread :=
  mkThread p (bestBuyIndex th) (bestSellIndex th) (bestBuyPrice th)
           (bestSellPrice th) (buyQty th) (sellQty th) (matched th).

Definition with_buys (buys : list Order) (ob : OrderBook) : OrderBook :=
  mkOrderBook buys (buyCount ob) (sellOrders ob) (sellCount ob).

Definition with_sells (sells : list Order) (ob : OrderBook) : OrderBook :=
  mkOrderBook (buyOrders ob) (buyCount ob) sells (sellCount ob).

(** [quantity.fetch_sub(m)]. *)
Definition fetch_sub (o : Order) (m : Z) : Order :=
  mkOrder (active o) (isBuy o) (int_wrap (quantity o - m)) (price o).

(** [if (quantity.load() == 0) active.store(false)]. *)
Definition retire (o : Order) : Order :=
  if quantity o =? 0 then mkOrder false (isBuy o) (quantity o) (price o) else o.

(** One step of one thread on the shared book. *)
Definition step (ticker : string) (th : Thread) (ob : OrderBook)
    : option (Thread * OrderBook * list Fill) :=
  match pc th with
  | AtScan =>
      '(bbi, bbp) ← scanBuy (buyOrders ob) (Z.to_nat (buyCount ob)) 0 (-1) 0;
      '(bsi, bsp) ← scanSell (sellOrders ob) (Z.to_nat (sellCount ob)) 0 (-1) 1000000;
      let next :=
        if negb (bbi =? -1) && negb (bsi =? -1) && (bsp <=? bbp)
        then AtLoadBuy else AtEnd in
      Some (mkThread next bbi bsi bbp bsp (buyQty th) (sellQty th) (matched th),
            ob, [])
  | AtLoadBuy =>
      b ← load (buyOrders ob) (bestBuyIndex th);
      Some (mkThread AtLoadSell (bestBuyIndex th) (bestSellIndex th)
                     (bestBuyPrice th) (bestSellPrice th)
                     (quantity b) (sellQty th) (matched th), ob, [])
  | AtLoadSell =>
      s ← load (sellOrders ob) (bestSellIndex th);
      Some (mkThread AtSubBuy (bestBuyIndex th) (bestSellIndex th)
                     (bestBuyPrice th) (bestSellPrice th)
                     (buyQty th) (quantity s)
                     (Z.min (buyQty th) (quantity s)), ob, [])
  | AtSubBuy =>
      b ← load (buyOrders ob) (bestBuyIndex th);
      buys ← store (buyOrders ob) (bestBuyIndex th) (fetch_sub b (matched th));
      Some (goto AtSubSell th, with_buys buys ob, [])
  | AtSubSell =>
      s ← load (sellOrders ob) (bestSellIndex th);
      sells ← store (sellOrders ob) (bestSellIndex th) (fetch_sub s (matched th));
      Some (goto AtCheckBuy th, with_sells sells ob, [])
  | AtCheckBuy =>
      b ← load (buyOrders ob) (bestBuyIndex th);
      buys ← store (buyOrders ob) (bestBuyIndex th) (retire b);
      Some (goto AtCheckSell th, with_buys buys ob, [])
  | AtCheckSell =>
      s ← load (sellOrders ob) (bestSellIndex th);
      sells ← store (sellOrders ob) (bestSellIndex th) (retire s);
      Some (goto AtPrint th, with_sells sells ob, [])
  | AtPrint =>
      Some (goto AtEnd th, ob,
            [mkFill ticker (matched th) (bestBuyPrice th) (bestSellPrice th)])
  | AtEnd => Some (th, ob, [])
  end.

(** [n] steps of a thread that has the book to itself. *)
Fixpoint alone (ticker : string) (n : nat) (th : Thread) (ob : OrderBook)
    : option (Thread * OrderBook * list Fill) :=
  match n with
  | O => Some (th, ob, [])
  | S n' =>
      '(th1, ob1, fills1) ← step ticker th ob;
      '(th2, ob2, fills2) ← alone ticker n' th1 ob1;
      Some (th2, ob2, fills1 ++ fills2)
  end.

(** A schedule names, step after step, the thread that moves. *)
Fixpoint interleave (ticker : string) (schedule : list nat)
    (threads : list Thread) (ob : OrderBook)
    : option (list Thread * OrderBook * list Fill) :=
  match schedule with
  | [] => Some (threads, ob, [])
  | k :: rest =>
      th ← threads !! k;
      '(th', ob1, fills1) ← step ticker th ob;
      '(threads2, ob2, fills2) ← interleave ticker rest (<[k := th']> threads) ob1;
      Some (threads2, ob2, fills1 ++ fills2)
  end.

(** The book of the race scenario: one buy and one sell of 100 at 50. *)
Definition race_book : OrderBook :=
  mkOrderBook (<[0%nat := mkOrder true true 100 50]> (buyOrders OrderBook_init)) 1
              (<[0%nat := mkOrder true false 100 50]> (sellOrders OrderBook_init)) 1.

(** Both threads advance in lockstep. *)
Definition lockstep : list nat :=
  [0; 1; 0; 1; 0; 1; 0; 1; 0; 1; 0; 1; 0; 1; 0; 1]%nat.

(** The first thread finishes before the second starts. *)
Definition serial : list nat :=
  [0; 0; 0; 0; 0; 0; 0; 0; 1; 1; 1; 1; 1; 1; 1; 1]%nat.

End Threads.

(** ** Vocabulary of the properties *)

(** The order with its price negated: it turns the lowest price into the
    highest. *)
Definition flip_price (o : Order) : Order :=
  mkOrder (active o) (isBuy o) (quantity o) (- price o).

(** The live orders of each side. *)
Definition is_live_buy (ob : OrderBook) (o : Order) : Prop :=
  ∃ i, 0 <= i < buyCount ob ∧ load (buyOrders ob) i = Some o ∧ live o = true.

Definition is_live_sell (ob : OrderBook) (o : Order) : Prop :=
  ∃ j, 0 <= j < sellCount ob ∧ load (sellOrders ob) j = Some o ∧ live o = true.

(** [b], at index [i], is the buy order the first loop selects: the first
    live order at the highest price, which has to exceed the initial
    [bestBuyPrice]. *)
Definition selected_buy (ob : OrderBook) (i : Z) (b : Order) : Prop :=
  0 <= i < buyCount ob ∧ load (buyOrders ob) i = Some b ∧
  live b = true ∧ 0 < price b ∧
  (∀ j o, 0 <= j < buyCount ob → load (buyOrders ob) j = Some o →
          live o = true → price o <= price b) ∧
  (∀ j o, 0 <= j < i → load (buyOrders ob) j = Some o →
          live o = true → price o < price b).

(** [s], at index [j], is the sell order the second loop selects: the first
    live order at the lowest price, which has to be below the initial
    [bestSellPrice]. *)
Definition selected_sell (ob : OrderBook) (j : Z) (s : Order) : Prop :=
  0 <= j < sellCount ob ∧ load (sellOrders ob) j = Some s ∧
  live s = true ∧ price s < 1000000 ∧
  (∀ k o, 0 <= k < sellCount ob → load (sellOrders ob) k = Some o →
          live o = true → price s <= price o) ∧
  (∀ k o, 0 <= k < j → load (sellOrders ob) k = Some o →
          live o = true → price s < price o).

(** The first loop selects nothing. *)
Definition no_selected_buy (ob : OrderBook) : Prop :=
  ∀ j o, 0 <= j < buyCount ob → load (buyOrders ob) j = Some o →
         live o = true → price o <= 0.

(** The second loop selects nothing. *)
Definition no_selected_sell (ob : OrderBook) : Prop :=
  ∀ k o, 0 <= k < sellCount ob → load (sellOrders ob) k = Some o →
         live o = true → 1000000 <= price o.

(** The two ways a call of [matchOrder] ends. *)
Inductive match_outcome (ticker : string) (ob : OrderBook)
    : OrderBook → option Fill → Prop :=
  | outcome_none :
      no_selected_buy ob ∨ no_selected_sell ob ∨
      (∃ i b j s, selected_buy ob i b ∧ selected_sell ob j s ∧
                  price b < price s) →
      match_outcome ticker ob ob None
  | outcome_fill (i j : Z) (b s : Order) :
      selected_buy ob i b → selected_sell ob j s → price s <= price b →
      let m := Z.min (quantity b) (quantity s) in
      match_outcome ticker ob
        (mkOrderBook (<[Z.to_nat i := fill_order b m]> (buyOrders ob))
                     (buyCount ob)
                     (<[Z.to_nat j := fill_order s m]> (sellOrders ob))
                     (sellCount ob))
        (Some (mkFill ticker m (price b) (price s))).

(** Every quantity field holds an [int]. *)
Definition int_orders (orders : list Order) : Prop :=
  Forall (λ o, is_int (quantity o)) orders.

(** The shape of a book of the program: two arrays of
    [MAX_ORDERS_PER_SIDE] slots with [int] quantities, and counters that
    have not run past the arrays. *)
Record book_ok (ob : OrderBook) : Prop := mkBookOk {
  ok_buy_length : Z.of_nat (length (buyOrders ob)) = MAX_ORDERS_PER_SIDE;
  ok_sell_length : Z.of_nat (length (sellOrders ob)) = MAX_ORDERS_PER_SIDE;
  ok_buy_count : 0 <= buyCount ob <= MAX_ORDERS_PER_SIDE;
  ok_sell_count : 0 <= sellCount ob <= MAX_ORDERS_PER_SIDE;
  ok_buy_int : int_orders (buyOrders ob);
  ok_sell_int : int_orders (sellOrders ob)
}.

(** The arguments of an insertion are [int]s. *)
Definition op_int (op : BookOp) : Prop :=
  match op with
  | Add _ quantity price => is_int quantity ∧ is_int price
  | Match => True
  end.

(** The totals over both sides of a book. *)
Definition inserted (ops : list BookOp) : Z :=
  inserted_on "Buy" ops + inserted_on "Sell" ops.

Definition remaining (ob : OrderBook) : Z :=
  remaining_buy ob + remaining_sell ob.

(** [p] is the best price of a side: the price of some live order that no
    live order of the side beats. *)
Definition best_buy_price (ob : OrderBook) (p : Z) : Prop :=
  (∃ o, is_live_buy ob o ∧ price o = p) ∧
  (∀ o, is_live_buy ob o → price o <= p).

Definition best_sell_price (ob : OrderBook) (p : Z) : Prop :=
  (∃ o, is_live_sell ob o ∧ price o = p) ∧
  (∀ o, is_live_sell ob o → p <= price o).

(** The book after 1024 buys of quantity 1 at price 1: the buy side is
    full. *)
Definition full_buy_book : OrderBook :=
  mkOrderBook (replicate (Z.to_nat MAX_ORDERS_PER_SIDE) (mkOrder true true 1 1))
              MAX_ORDERS_PER_SIDE (sellOrders OrderBook_init) 0.

(** The book of the partial-fill scenario before the match: a buy of 300
    at 60 and a sell of 100 at 55. *)
Definition partial_fill_book : OrderBook :=
  mkOrderBook (<[0%nat := mkOrder true true 300 60]> (buyOrders OrderBook_init)) 1
              (<[0%nat := mkOrder true false 100 55]> (sellOrders OrderBook_init)) 1.

(** The same book after the match. *)
Definition partial_fill_book_after : OrderBook :=
  mkOrderBook (<[0%nat := mkOrder true true 200 60]> (buyOrders OrderBook_init)) 1
              (<[0%nat := mkOrder false false 0 55]> (sellOrders OrderBook_init)) 1.

(** ** simulateOrders (main.cpp, lines 140-159) *)

(** The example tickers of the simulation. *)
Definition tickers : list string :=
  ["AAPL"; "GOOG"; "MSFT"; "AMZN"; "FB"; "TSLA"; "NFLX"; "NVDA"].

(** [sizeof(tickers) / sizeof(tickers[0])]. *)
Definition numTickers : Z := Z.of_nat (length tickers).

(** One thread in [simulateOrders].  The library function [rand] is an
    oracle: [rand k] is the value its [k]-th call returns to this thread.
    Every round makes four calls, in the order of the four statements, and
    [%] is the remainder of C, [Z.rem]. *)
Fixpoint simulateOrders (rand : nat → Z) (k : nat) (numOrders : nat)
    (orderBooks : list OrderBook) : option (list OrderBook * list Fill) :=
  match numOrders with
  | O => Some (orderBooks, [])
  | S rest =>
      let orderType := if Z.rem (rand k) 2 =? 0 then "Buy" else "Sell" in
      ticker ← load tickers (Z.rem (rand (k + 1)%nat) numTickers);
      let quantity := Z.rem (rand (k + 2)%nat) 1000 + 1 in
      let price := Z.rem (rand (k + 3)%nat) 491 + 10 in
      books1 ← addOrder orderType ticker quantity price orderBooks;
      '(books2, f) ← matchOrder ticker books1;
      '(books3, fills) ← simulateOrders rand (k + 4)%nat rest books2;
      Some (books3, option_list f ++ fills)
  end.

(** ** Vocabulary of the further properties *)

(** The hash of a ticker computed in unbounded integers. *)
Fixpoint polynomial_hash (hash : Z) (ticker : string) : Z :=
  match ticker with
  | EmptyString => hash
  | String c rest => polynomial_hash (hash * 31 + char_to_uint c) rest
  end.

Definition call_ticker (c : Call) : string :=
  match c with
  | CallAdd _ ticker _ _ => ticker
  | CallMatch ticker => ticker
  end.

(** What a call does to the book it is routed to. *)
Definition call_book (c : Call) (ob : OrderBook)
    : option (OrderBook * list Fill) :=
  match c with
  | CallAdd orderType _ quantity price =>
      ob' ← addOrder_book orderType quantity price ob;
      Some (ob', [])
  | CallMatch ticker =>
      '(ob', f) ← matchOrder_book ticker ob;
      Some (ob', option_list f)
  end.

(** The calls of a sequence that are routed to bucket [j], applied in their
    order to the book of that bucket. *)
Fixpoint run_bucket (j : Z) (calls : list Call) (ob : OrderBook)
    : option (OrderBook * list Fill) :=
  match calls with
  | [] => Some (ob, [])
  | c :: rest =>
      if hashTicker (call_ticker c) =? j then
        '(ob1, fills1) ← call_book c ob;
        '(ob2, fills2) ← run_bucket j rest ob1;
        Some (ob2, fills1 ++ fills2)
      else run_bucket j rest ob
  end.

(** The operations a sequence of calls makes under the ticker [ticker]. *)
Fixpoint ops_of (ticker : string) (calls : list Call) : list BookOp :=
  match calls with
  | [] => []
  | c :: rest =>
      if String.eqb (call_ticker c) ticker then
        match c with
        | CallAdd orderType _ quantity price =>
            Add orderType quantity price :: ops_of ticker rest
        | CallMatch _ => Match :: ops_of ticker rest
        end
      else ops_of ticker rest
  end.

(** The fills printed for [ticker]. *)
Fixpoint fills_of (ticker : string) (fills : list Fill) : list Fill :=
  match fills with
  | [] => []
  | f :: rest =>
      if String.eqb (fillTicker f) ticker
      then f :: fills_of ticker rest else fills_of ticker rest
  end.

(** The fills printed for the tickers of bucket [j]. *)
Fixpoint fills_of_bucket (j : Z) (fills : list Fill) : list Fill :=
  match fills with
  | [] => []
  | f :: rest =>
      if hashTicker (fillTicker f) =? j
      then f :: fills_of_bucket j rest else fills_of_bucket j rest
  end.

(** The calls [simulateOrders] makes, round by round. *)
Fixpoint simulated_calls (rand : nat → Z) (k : nat) (numOrders : nat)
    : list Call :=
  match numOrders with
  | O => []
  | S rest =>
      let orderType := if Z.rem (rand k) 2 =? 0 then "Buy" else "Sell" in
      let ticker :=
        default "" (load tickers (Z.rem (rand (k + 1)%nat) numTickers)) in
      let quantity := Z.rem (rand (k + 2)%nat) 1000 + 1 in
      let price := Z.rem (rand (k + 3)%nat) 491 + 10 in
      CallAdd orderType ticker quantity price :: CallMatch ticker
        :: simulated_calls rand (k + 4)%nat rest
  end.

(** The arguments of a call hold [int]s. *)
Definition call_int (c : Call) : Prop :=
  match c with
  | CallAdd _ _ quantity price => is_int quantity ∧ is_int price
  | CallMatch _ => True
  end.

(** The same with a positive quantity. *)
Definition call_positive (c : Call) : Prop :=
  call_int c ∧
  match c with
  | CallAdd _ _ quantity _ => 0 < quantity
  | CallMatch _ => True
  end.

(** Every field of the book holds an [int]. *)
Definition book_typed (ob : OrderBook) : Prop :=
  int_orders (buyOrders ob) ∧ int_orders (sellOrders ob) ∧
  is_int (buyCount ob) ∧ is_int (sellCount ob).

(** A slot whose flag says whether quantity is left. *)
Definition tidy (o : Order) : Prop :=
  0 <= quantity o ∧ active o = (0 <? quantity o).

Definition book_tidy (ob : OrderBook) : Prop :=
  Forall tidy (buyOrders ob) ∧ Forall tidy (sellOrders ob).

(** How an order [o] may look later, as [o']. *)
Definition order_after (o o' : Order) : Prop :=
  price o' = price o ∧ isBuy o' = isBuy o ∧ quantity o' <= quantity o ∧
  (active o' = true → active o = true) ∧ (live o = false → o' = o).



(** The prices of the insertions made on a side, in their order. *)
Fixpoint prices_on (side : string) (ops : list BookOp) : list Z :=
  match ops with
  | [] => []
  | Add orderType _ price :: rest =>
      if String.eqb orderType side
      then price :: prices_on side rest else prices_on side rest
  | Match :: rest => prices_on side rest
  end.

(** The book of "AAPL" after the round [simulateOrders] makes when every
    call of [rand] returns 0: one buy of 1 at 10. *)
Definition zero_draw_book : OrderBook :=
  mkOrderBook (<[0%nat := mkOrder true true 1 10]> (buyOrders OrderBook_init)) 1
              (sellOrders OrderBook_init) 0.

(** The ways a call of [addOrder] ends on the book it is routed to: the
    order is stored at the counter of its side, or dropped because the side
    is full, or its type is unknown and nothing happens. *)
Inductive add_outcome (orderType : string) (quantity price : Z)
    (ob : OrderBook) : OrderBook → Prop :=
  | add_buy_stored :
      orderType = "Buy" →
      0 <= buyCount ob < MAX_ORDERS_PER_SIDE →
      buyCount ob < Z.of_nat (length (buyOrders ob)) →
      add_outcome orderType quantity price ob
        (mkOrderBook
           (<[Z.to_nat (buyCount ob) := mkOrder true true quantity price]>
              (buyOrders ob))
           (int_wrap (buyCount ob + 1)) (sellOrders ob) (sellCount ob))
  | add_buy_dropped :
      orderType = "Buy" →
      MAX_ORDERS_PER_SIDE <= buyCount ob →
      add_outcome orderType quantity price ob
        (mkOrderBook (buyOrders ob) (int_wrap (buyCount ob + 1))
                     (sellOrders ob) (sellCount ob))
  | add_sell_stored :
      orderType = "Sell" →
      0 <= sellCount ob < MAX_ORDERS_PER_SIDE →
      sellCount ob < Z.of_nat (length (sellOrders ob)) →
      add_outcome orderType quantity price ob
        (mkOrderBook (buyOrders ob) (buyCount ob)
           (<[Z.to_nat (sellCount ob) := mkOrder true false quantity price]>
              (sellOrders ob))
           (int_wrap (sellCount ob + 1)))
  | add_sell_dropped :
      orderType = "Sell" →
      MAX_ORDERS_PER_SIDE <= sellCount ob →
      add_outcome orderType quantity price ob
        (mkOrderBook (buyOrders ob) (buyCount ob)
                     (sellOrders ob) (int_wrap (sellCount ob + 1)))
  | add_ignored :
      orderType ≠ "Buy" → orderType ≠ "Sell" →
      add_outcome orderType quantity price ob ob.

(** Slot [i] of a side whose counter is [count] holds an order that no
    later insertion can overwrite: the counter has passed it, or has
    wrapped around, after which no insertion is defined. *)
Definition kept (i count : Z) : Prop := 0 <= i ∧ (i < count ∨ count < 0).

(** An insertion with [int] arguments and a positive quantity. *)
Definition op_positive (op : BookOp) : Prop :=
  op_int op ∧
  match op with
  | Add _ quantity _ => 0 < quantity
  | Match => True
  end.

(** A book that is well-formed and has received at most [k] orders on each
    side. *)
Definition book_within (k : Z) (ob : OrderBook) : Prop :=
  book_ok ob ∧ buyCount ob <= k ∧ sellCount ob <= k.





(** The prices of the insertions a sequence of calls makes on a side. *)
Fixpoint call_prices (side : string) (calls : list Call) : list Z :=
  match calls with
  | [] => []
  | CallAdd orderType _ _ price :: rest =>
      if String.eqb orderType side
      then price :: call_prices side rest else call_prices side rest
  | CallMatch _ :: rest => call_prices side rest
  end.

(** The active orders of a book carry prices of [buys] and of [sells]. *)
Definition book_priced (buys sells : list Z) (ob : OrderBook) : Prop :=
  Forall (λ o, active o = true → price o ∈ buys) (buyOrders ob) ∧
  Forall (λ o, active o = true → price o ∈ sells) (sellOrders ob).

(** * Properties *)

(** The sizes stay folded in proofs: no step below needs their value in
    unary. *)
#[local] Arguments MAX_ORDERS_PER_SIDE : simpl never.
#[local] Arguments MAX_TICKERS : simpl never.

(** ** Integers and array access *)

Lemma int_wrap_id (z : Z) : is_int z → int_wrap z = z.
Proof.
  unfold is_int, int_wrap. intros Hz.
  rewrite Z.mod_small by lia. lia.
Qed.

Lemma is_int_wrap (z : Z) : is_int (int_wrap z).
Proof.
  unfold is_int, int_wrap.
  pose proof (Z.mod_pos_bound (z + 2 ^ 31) (2 ^ 32) ltac:(lia)). lia.
Qed.

Lemma load_Some {A : Type} (a : list A) (i : Z) (x : A) :
  load a i = Some x ↔ 0 <= i ∧ a !! Z.to_nat i = Some x.
Proof.
  unfold load. destruct (Z.leb_spec 0 i); split; intros H1; try tauto; try done.
  destruct H1; lia.
Qed.

Lemma load_lt {A : Type} (a : list A) (i : Z) (x : A) :
  load a i = Some x → 0 <= i < Z.of_nat (length a).
Proof.
  intros [Hi Hl]%load_Some. apply lookup_lt_Some in Hl. lia.
Qed.

Lemma load_is_Some {A : Type} (a : list A) (i : Z) :
  0 <= i < Z.of_nat (length a) → is_Some (load a i).
Proof.
  intros Hi. unfold load. destruct (Z.leb_spec 0 i); [|lia].
  apply lookup_lt_is_Some. lia.
Qed.

Lemma load_None {A : Type} (a : list A) (i : Z) :
  Z.of_nat (length a) <= i → load a i = None.
Proof.
  intros Hi. unfold load. destruct (Z.leb_spec 0 i); [|done].
  apply lookup_ge_None. lia.
Qed.

Lemma store_Some {A : Type} (a a' : list A) (i : Z) (x : A) :
  store a i x = Some a' ↔
  0 <= i < Z.of_nat (length a) ∧ a' = <[Z.to_nat i := x]> a.
Proof.
  unfold store.
  destruct (Z.leb_spec 0 i), (Z.ltb_spec i (Z.of_nat (length a))); simpl;
    split; intros H1; try (destruct H1; lia); try done.
  - inversion H1. split; [lia|done].
  - destruct H1 as [_ ->]. done.
Qed.

Lemma store_is_Some {A : Type} (a : list A) (i : Z) (x : A) :
  0 <= i < Z.of_nat (length a) → store a i x = Some (<[Z.to_nat i := x]> a).
Proof. intros Hi. apply store_Some. done. Qed.

Lemma load_store_eq {A : Type} (a a' : list A) (i : Z) (x : A) :
  store a i x = Some a' → load a' i = Some x.
Proof.
  intros [Hi ->]%store_Some. apply load_Some. split; [lia|].
  apply list_lookup_insert_eq. lia.
Qed.

Lemma load_store_ne {A : Type} (a a' : list A) (i j : Z) (x : A) :
  store a i x = Some a' → i ≠ j → load a' j = load a j.
Proof.
  intros [Hi ->]%store_Some Hne. unfold load.
  destruct (Z.leb_spec 0 j); [|done].
  apply list_lookup_insert_ne. lia.
Qed.

Lemma store_length {A : Type} (a a' : list A) (i : Z) (x : A) :
  store a i x = Some a' → length a' = length a.
Proof. intros [_ ->]%store_Some. apply length_insert. Qed.

(** ** hashTicker *)

Lemma hashTicker_range (ticker : string) : 0 <= hashTicker ticker < MAX_TICKERS.
Proof. unfold hashTicker, MAX_TICKERS. apply Z.mod_pos_bound. lia. Qed.

(** ** The scan loops *)

Lemma scan_cond_live (o : Order) (c : bool) :
  active o && (0 <? quantity o) && c = live o && c.
Proof. done. Qed.

(** Both loops stay inside the array when the counter does not exceed its
    size. *)
Lemma scanBuy_total (orders : list Order) (n : nat) (i bi bp : Z) :
  0 <= i → i + Z.of_nat n <= Z.of_nat (length orders) →
  is_Some (scanBuy orders n i bi bp).
Proof.
  revert i bi bp. induction n as [|n IH]; intros i bi bp Hi Hn; simpl.
  - eauto.
  - destruct (load_is_Some orders i) as [o Ho]; [lia|]. rewrite Ho. simpl.
    destruct (_ && _ && _); apply IH; lia.
Qed.

(** A counter above the size of the array makes the loop read past it. *)
Lemma scanBuy_out_of_bounds (orders : list Order) (n : nat) (i bi bp : Z) :
  0 <= i <= Z.of_nat (length orders) →
  Z.of_nat (length orders) < i + Z.of_nat n →
  scanBuy orders n i bi bp = None.
Proof.
  revert i bi bp. induction n as [|n IH]; intros i bi bp Hi Hn; simpl.
  - lia.
  - destruct (decide (i = Z.of_nat (length orders))) as [->|Hne].
    + rewrite load_None by lia. done.
    + destruct (load_is_Some orders i) as [o Ho]; [lia|]. rewrite Ho. simpl.
      destruct (_ && _ && _); apply IH; lia.
Qed.

(** What the buy loop returns: no live order it visited has a higher price
    than the price returned, and either nothing beat the initial price or
    the index returned is the first live order at the price returned. *)
Lemma scanBuy_spec (orders : list Order) (n : nat) (i bi bp bi' bp' : Z) :
  scanBuy orders n i bi bp = Some (bi', bp') →
  (∀ j o, i <= j < i + Z.of_nat n → load orders j = Some o →
          live o = true → price o <= bp') ∧
  ((bi' = bi ∧ bp' = bp) ∨
   (i <= bi' < i + Z.of_nat n ∧ bp < bp' ∧
    ∃ o, load orders bi' = Some o ∧ live o = true ∧ price o = bp' ∧
         ∀ j o', i <= j < bi' → load orders j = Some o' →
                 live o' = true → price o' < bp')).
Proof.
  revert i bi bp. induction n as [|n IH]; intros i bi bp Hs; simpl in Hs.
  - inversion Hs; subst. split; [intros; lia | left; done].
  - destruct (load orders i) as [o|] eqn:Ho; simpl in Hs; [|done].
    rewrite scan_cond_live in Hs.
    destruct (live o) eqn:Hl; simpl in Hs;
      [destruct (Z.ltb_spec bp (price o)) as [Hp|Hp]|];
      apply IH in Hs as [Hall Hsel].
    + assert (price o <= bp') by (destruct Hsel as [[_ ->]|(_ & ? & _)]; lia).
      split.
      * intros j o' Hj Hlo Hlive. destruct (decide (j = i)) as [->|].
        -- rewrite Ho in Hlo. inversion Hlo; subst. done.
        -- apply (Hall j o'); [lia|done..].
      * right.
        destruct Hsel as [[-> ->]|(Hr & Hlt & o' & Hlo & Hlv & Hpr & Hearly)].
        -- split; [lia|]. split; [lia|]. exists o.
           repeat split; try done. intros; lia.
        -- split; [lia|]. split; [lia|]. exists o'.
           repeat split; try done.
           intros j o'' Hj Hlo' Hlv'. destruct (decide (j = i)) as [->|].
           ++ rewrite Ho in Hlo'. inversion Hlo'; subst. lia.
           ++ apply (Hearly j o''); [lia|done..].
    + assert (bp <= bp') by (destruct Hsel as [[_ ->]|(_ & ? & _)]; lia).
      split.
      * intros j o' Hj Hlo Hlive. destruct (decide (j = i)) as [->|].
        -- rewrite Ho in Hlo. inversion Hlo; subst. lia.
        -- apply (Hall j o'); [lia|done..].
      * destruct Hsel as [[-> ->]|(Hr & Hlt & o' & Hlo & Hlv & Hpr & Hearly)];
          [left; done|right].
        split; [lia|]. split; [lia|]. exists o'.
        repeat split; try done.
        intros j o'' Hj Hlo' Hlv'. destruct (decide (j = i)) as [->|].
        -- rewrite Ho in Hlo'. inversion Hlo'; subst. lia.
        -- apply (Hearly j o''); [lia|done..].
    + split.
      * intros j o' Hj Hlo Hlive. destruct (decide (j = i)) as [->|].
        -- rewrite Ho in Hlo. inversion Hlo; subst. congruence.
        -- apply (Hall j o'); [lia|done..].
      * destruct Hsel as [[-> ->]|(Hr & Hlt & o' & Hlo & Hlv & Hpr & Hearly)];
          [left; done|right].
        split; [lia|]. split; [lia|]. exists o'.
        repeat split; try done.
        intros j o'' Hj Hlo' Hlv'. destruct (decide (j = i)) as [->|].
        -- rewrite Ho in Hlo'. inversion Hlo'; subst. congruence.
        -- apply (Hearly j o''); [lia|done..].
Qed.


(** *** The sell loop by symmetry

    The sell loop is the buy loop on the negated prices. *)

Lemma load_fmap {A B : Type} (f : A → B) (a : list A) (i : Z) :
  load (f <$> a) i = f <$> load a i.
Proof. unfold load. destruct (0 <=? i); [apply list_lookup_fmap|done]. Qed.

Lemma live_flip_price (o : Order) : live (flip_price o) = live o.
Proof. done. Qed.

Lemma scanSell_flip (orders : list Order) (n : nat) (i bi bp : Z) :
  scanSell orders n i bi bp
  = prod_map id Z.opp <$> scanBuy (flip_price <$> orders) n i bi (- bp).
Proof.
  revert i bi bp. induction n as [|n IH]; intros i bi bp; simpl.
  - unfold prod_map. simpl. by rewrite Z.opp_involutive.
  - rewrite load_fmap. destruct (load orders i) as [o|]; simpl; [|done].
    replace (- bp <? - price o) with (price o <? bp)
      by (destruct (Z.ltb_spec (price o) bp), (Z.ltb_spec (- bp) (- price o));
          done || lia).
    destruct (_ && _ && _); apply IH.
Qed.

Lemma scanSell_total (orders : list Order) (n : nat) (i bi bp : Z) :
  0 <= i → i + Z.of_nat n <= Z.of_nat (length orders) →
  is_Some (scanSell orders n i bi bp).
Proof.
  intros Hi Hn. rewrite scanSell_flip. apply fmap_is_Some.
  apply scanBuy_total; [done|]. by rewrite length_fmap.
Qed.

Lemma scanSell_out_of_bounds (orders : list Order) (n : nat) (i bi bp : Z) :
  0 <= i <= Z.of_nat (length orders) →
  Z.of_nat (length orders) < i + Z.of_nat n →
  scanSell orders n i bi bp = None.
Proof.
  intros Hi Hn. rewrite scanSell_flip.
  rewrite scanBuy_out_of_bounds by (by rewrite length_fmap). done.
Qed.

(** What the sell loop returns, with the order on prices reversed. *)
Lemma scanSell_spec (orders : list Order) (n : nat) (i bi bp bi' bp' : Z) :
  scanSell orders n i bi bp = Some (bi', bp') →
  (∀ j o, i <= j < i + Z.of_nat n → load orders j = Some o →
          live o = true → bp' <= price o) ∧
  ((bi' = bi ∧ bp' = bp) ∨
   (i <= bi' < i + Z.of_nat n ∧ bp' < bp ∧
    ∃ o, load orders bi' = Some o ∧ live o = true ∧ price o = bp' ∧
         ∀ j o', i <= j < bi' → load orders j = Some o' →
                 live o' = true → bp' < price o')).
Proof.
  rewrite scanSell_flip. intros Hs.
  apply fmap_Some in Hs as ([k p] & Hs & [= -> ->]).
  apply scanBuy_spec in Hs as [Hall Hsel].
  assert (∀ j o, load orders j = Some o →
                 load (flip_price <$> orders) j = Some (flip_price o)) as Hflip
    by (intros j o Hl; by rewrite load_fmap, Hl).
  split.
  - intros j o Hj Hl Hv. specialize (Hall j _ Hj (Hflip _ _ Hl) Hv).
    simpl in *. lia.
  - destruct Hsel as [[-> ->]|(Hr & Hlt & o' & Hlo & Hv & Hp & Hearly)];
      [left; split; [done|simpl; lia]|right].
    rewrite load_fmap in Hlo.
    apply fmap_Some in Hlo as (o & Hlo & ->).
    split; [done|]. split; [simpl in *; lia|].
    exists o. split_and!; [done|done|simpl in *; lia|].
    intros j o2 Hj Hl2 Hv2. specialize (Hearly j _ Hj (Hflip _ _ Hl2) Hv2).
    simpl in *. lia.
Qed.

(** ** What one call of matchOrder does *)

Lemma scanBuy_selected (ob : OrderBook) (bi bp : Z) :
  scanBuy (buyOrders ob) (Z.to_nat (buyCount ob)) 0 (-1) 0 = Some (bi, bp) →
  (bi = -1 ∧ no_selected_buy ob) ∨
  (∃ b, selected_buy ob bi b ∧ price b = bp).
Proof.
  intros [Hall Hsel]%scanBuy_spec.
  destruct Hsel as [[-> ->]|(Hr & Hlt & o & Hlo & Hlv & Hpr & Hearly)].
  - left. split; [done|]. intros j o Hj Hlo Hlv. apply (Hall j o); [lia|done..].
  - right. exists o. split; [|done]. subst bp.
    split; [lia|]. split; [done|]. split; [done|]. split; [lia|]. split.
    + intros j o' Hj. apply Hall. lia.
    + intros j o' Hj. apply Hearly. lia.
Qed.

Lemma scanSell_selected (ob : OrderBook) (bi bp : Z) :
  scanSell (sellOrders ob) (Z.to_nat (sellCount ob)) 0 (-1) 1000000
    = Some (bi, bp) →
  (bi = -1 ∧ no_selected_sell ob) ∨
  (∃ s, selected_sell ob bi s ∧ price s = bp).
Proof.
  intros [Hall Hsel]%scanSell_spec.
  destruct Hsel as [[-> ->]|(Hr & Hlt & o & Hlo & Hlv & Hpr & Hearly)].
  - left. split; [done|]. intros j o Hj Hlo Hlv. apply (Hall j o); [lia|done..].
  - right. exists o. split; [|done]. subst bp.
    split; [lia|]. split; [done|]. split; [done|]. split; [lia|]. split.
    + intros j o' Hj. apply Hall. lia.
    + intros j o' Hj. apply Hearly. lia.
Qed.

Lemma matchOrder_book_outcome (ticker : string) (ob ob' : OrderBook)
    (f : option Fill) :
  matchOrder_book ticker ob = Some (ob', f) → match_outcome ticker ob ob' f.
Proof.
  unfold matchOrder_book. intros Hm.
  destruct (scanBuy _ _ _ _ _) as [[bi bp]|] eqn:Hb; simpl in Hm; [|done].
  destruct (scanSell _ _ _ _ _) as [[si sp]|] eqn:Hs; simpl in Hm; [|done].
  apply scanBuy_selected in Hb. apply scanSell_selected in Hs.
  destruct Hb as [[-> Hnb]|(b & Hsb & <-)].
  { simpl in Hm. inversion Hm; subst. constructor. by left. }
  destruct Hs as [[-> Hns]|(s & Hss & <-)].
  { rewrite andb_false_r in Hm. simpl in Hm. inversion Hm; subst.
    constructor. right. by left. }
  assert (bi ≠ -1) as Hbi by (destruct Hsb; lia).
  assert (si ≠ -1) as Hsi by (destruct Hss; lia).
  apply Z.eqb_neq in Hbi, Hsi. rewrite Hbi, Hsi in Hm. simpl in Hm.
  destruct (Z.leb_spec (price s) (price b)) as [Hle|Hgt].
  - pose proof Hsb as (_ & Hlb & _). pose proof Hss as (_ & Hls & _).
    rewrite Hlb, Hls in Hm. simpl in Hm.
    rewrite !store_is_Some in Hm by eauto using load_lt. simpl in Hm.
    inversion Hm; subst. by apply outcome_fill.
  - inversion Hm; subst. constructor. right. right. by exists bi, b, si, s.
Qed.

(** A call of [matchOrder] stays inside the arrays, and so is defined,
    when neither counter exceeds the size of its array. *)
Lemma matchOrder_book_total (ticker : string) (ob : OrderBook) :
  buyCount ob <= Z.of_nat (length (buyOrders ob)) →
  sellCount ob <= Z.of_nat (length (sellOrders ob)) →
  is_Some (matchOrder_book ticker ob).
Proof.
  intros Hb Hs. unfold matchOrder_book.
  destruct (scanBuy_total (buyOrders ob) (Z.to_nat (buyCount ob)) 0 (-1) 0)
    as [[bi bp] Hsb]; [lia..|].
  destruct (scanSell_total (sellOrders ob) (Z.to_nat (sellCount ob)) 0 (-1) 1000000)
    as [[si sp] Hss]; [lia..|].
  rewrite Hsb, Hss. simpl.
  apply scanBuy_selected in Hsb. apply scanSell_selected in Hss.
  destruct (negb (bi =? -1) && negb (si =? -1) && (sp <=? bp)) eqn:Hc;
    [|eauto].
  apply andb_true_iff in Hc as [[Hbi Hsi]%andb_true_iff _].
  apply negb_true_iff, Z.eqb_neq in Hbi, Hsi.
  destruct Hsb as [[? _]|(b & (_ & Hlb & _) & _)]; [done|].
  destruct Hss as [[? _]|(s & (_ & Hls & _) & _)]; [done|].
  rewrite Hlb, Hls. simpl.
  rewrite !store_is_Some by eauto using load_lt. simpl. eauto.
Qed.

(** ** Well-formed books *)

Lemma MAX_ORDERS_PER_SIDE_int : 0 < MAX_ORDERS_PER_SIDE < 2 ^ 31 - 1.
Proof. unfold MAX_ORDERS_PER_SIDE. lia. Qed.

Lemma int_orders_load (orders : list Order) (i : Z) (o : Order) :
  int_orders orders → load orders i = Some o → is_int (quantity o).
Proof.
  intros Hall [_ Hl]%load_Some.
  exact (proj1 (Forall_lookup _ _) Hall _ _ Hl).
Qed.

Lemma int_orders_insert (orders : list Order) (k : nat) (o : Order) :
  int_orders orders → is_int (quantity o) → int_orders (<[k := o]> orders).
Proof. intros Hall Ho. by apply Forall_insert. Qed.

Lemma OrderBook_init_ok : book_ok OrderBook_init.
Proof.
  split; unfold OrderBook_init; cbn [buyOrders sellOrders buyCount sellCount];
    rewrite ?length_replicate; try (unfold MAX_ORDERS_PER_SIDE; lia).
  all: apply Forall_replicate; unfold is_int; simpl; lia.
Qed.

(** Without wrap-around, a fill takes [m] off the quantity and retires the
    order exactly when nothing is left. *)
Lemma fill_order_exact (o : Order) (m : Z) :
  is_int (quantity o) → live o = true → 0 < m <= quantity o →
  fill_order o m
  = mkOrder (negb (quantity o - m =? 0)) (isBuy o) (quantity o - m) (price o).
Proof.
  intros Hi [Ha Hq]%andb_true_iff Hm. unfold fill_order.
  rewrite int_wrap_id by (unfold is_int in *; lia).
  rewrite Ha. by destruct (quantity o - m =? 0).
Qed.

(** ** Sums of quantities *)

Lemma total_quantity_app (l1 l2 : list Order) :
  total_quantity (l1 ++ l2) = total_quantity l1 + total_quantity l2.
Proof.
  induction l1 as [|o l1 IH]; simpl; [done|].
  unfold total_quantity in *. simpl. rewrite IH. lia.
Qed.

Lemma total_quantity_insert (l : list Order) (k : nat) (o o' : Order) :
  l !! k = Some o →
  total_quantity (<[k := o']> l) = total_quantity l - quantity o + quantity o'.
Proof.
  revert k. induction l as [|x l IH]; intros [|k] Hk; simpl in *; try done.
  - inversion Hk; subst. unfold total_quantity. simpl. lia.
  - apply IH in Hk. unfold total_quantity in *. simpl. rewrite Hk. lia.
Qed.

Lemma total_matched_app (fs1 fs2 : list Fill) :
  total_matched (fs1 ++ fs2) = total_matched fs1 + total_matched fs2.
Proof.
  induction fs1 as [|f fs1 IH]; simpl; [done|].
  unfold total_matched in *. simpl. rewrite IH. lia.
Qed.

(** The sum over the slots below [n] after slot [i] was overwritten. *)
Lemma total_quantity_take_store (l : list Order) (n : nat) (i : Z) (o o' : Order) :
  load l i = Some o → i < Z.of_nat n →
  total_quantity (take n (<[Z.to_nat i := o']> l))
  = total_quantity (take n l) - quantity o + quantity o'.
Proof.
  intros [Hi Hl]%load_Some Hn.
  rewrite take_insert_lt by lia.
  apply total_quantity_insert. rewrite lookup_take_lt by lia. done.
Qed.

(** The sum after a new order was written at the counter. *)
Lemma total_quantity_take_append (l : list Order) (n : nat) (o : Order) :
  (n < length l)%nat →
  total_quantity (take (S n) (<[n := o]> l))
  = total_quantity (take n l) + quantity o.
Proof.
  intros Hn.
  rewrite (take_S_r _ _ o) by (by apply list_lookup_insert_eq).
  rewrite take_insert_ge by lia.
  rewrite total_quantity_app. unfold total_quantity at 2. simpl. lia.
Qed.

(** ** addOrder on one book *)

Lemma addOrder_book_buy (quantity price : Z) (ob : OrderBook) :
  book_ok ob → buyCount ob < MAX_ORDERS_PER_SIDE →
  addOrder_book "Buy" quantity price ob
  = Some (mkOrderBook
            (<[Z.to_nat (buyCount ob) := mkOrder true true quantity price]>
               (buyOrders ob))
            (buyCount ob + 1) (sellOrders ob) (sellCount ob)).
Proof.
  intros Hok Hlt. pose proof MAX_ORDERS_PER_SIDE_int.
  destruct Hok as [Hbl _ Hbc _ _ _].
  unfold addOrder_book. cbn [String.eqb Ascii.eqb Bool.eqb].
  cbn [buyOrders sellOrders buyCount sellCount].
  destruct (Z.leb_spec MAX_ORDERS_PER_SIDE (buyCount ob)); [lia|].
  rewrite store_is_Some by lia. simpl.
  rewrite int_wrap_id by (unfold is_int; lia). done.
Qed.

Lemma addOrder_book_sell (quantity price : Z) (ob : OrderBook) :
  book_ok ob → sellCount ob < MAX_ORDERS_PER_SIDE →
  addOrder_book "Sell" quantity price ob
  = Some (mkOrderBook (buyOrders ob) (buyCount ob)
            (<[Z.to_nat (sellCount ob) := mkOrder true false quantity price]>
               (sellOrders ob))
            (sellCount ob + 1)).
Proof.
  intros Hok Hlt. pose proof MAX_ORDERS_PER_SIDE_int.
  destruct Hok as [_ Hsl _ Hsc _ _].
  unfold addOrder_book. cbn [String.eqb Ascii.eqb Bool.eqb].
  cbn [buyOrders sellOrders buyCount sellCount].
  destruct (Z.leb_spec MAX_ORDERS_PER_SIDE (sellCount ob)); [lia|].
  rewrite store_is_Some by lia. simpl.
  rewrite int_wrap_id by (unfold is_int; lia). done.
Qed.

(** On a full side the counter still moves and nothing is written. *)
Lemma addOrder_book_buy_full (quantity price : Z) (ob : OrderBook) :
  MAX_ORDERS_PER_SIDE <= buyCount ob →
  addOrder_book "Buy" quantity price ob
  = Some (mkOrderBook (buyOrders ob) (int_wrap (buyCount ob + 1))
                      (sellOrders ob) (sellCount ob)).
Proof.
  intros Hge. unfold addOrder_book. cbn [String.eqb Ascii.eqb Bool.eqb].
  destruct (Z.leb_spec MAX_ORDERS_PER_SIDE (buyCount ob)); [done|lia].
Qed.

Lemma addOrder_book_sell_full (quantity price : Z) (ob : OrderBook) :
  MAX_ORDERS_PER_SIDE <= sellCount ob →
  addOrder_book "Sell" quantity price ob
  = Some (mkOrderBook (buyOrders ob) (buyCount ob)
                      (sellOrders ob) (int_wrap (sellCount ob + 1))).
Proof.
  intros Hge. unfold addOrder_book. cbn [String.eqb Ascii.eqb Bool.eqb].
  destruct (Z.leb_spec MAX_ORDERS_PER_SIDE (sellCount ob)); [done|lia].
Qed.

(** Any other order type falls through both branches. *)
Lemma addOrder_book_other (orderType : string) (quantity price : Z)
    (ob : OrderBook) :
  orderType ≠ "Buy" → orderType ≠ "Sell" →
  addOrder_book orderType quantity price ob = Some ob.
Proof.
  intros Hb%String.eqb_neq Hs%String.eqb_neq.
  unfold addOrder_book. by rewrite Hb, Hs.
Qed.

(** ** One operation on a well-formed book *)

Lemma live_quantity (o : Order) : live o = true → 0 < quantity o.
Proof. intros [_ Hq]%andb_true_iff. by apply Z.ltb_lt. Qed.

Lemma live_active (o : Order) : live o = true → active o = true.
Proof. by intros [Ha _]%andb_true_iff. Qed.

(** A call of [matchOrder] on a well-formed book is defined, keeps the
    book well-formed and takes the matched quantity off each side. *)
Lemma matchOrder_book_effect (ticker : string) (ob : OrderBook) :
  book_ok ob →
  ∃ ob' f,
    matchOrder_book ticker ob = Some (ob', f) ∧ book_ok ob' ∧
    buyCount ob' = buyCount ob ∧ sellCount ob' = sellCount ob ∧
    remaining_buy ob' + total_matched (option_list f) = remaining_buy ob ∧
    remaining_sell ob' + total_matched (option_list f) = remaining_sell ob.
Proof.
  intros Hok. pose proof Hok as [Hbl Hsl Hbc Hsc Hbi Hsi].
  destruct (matchOrder_book_total ticker ob) as [[ob' f] Hm]; [lia..|].
  exists ob', f. split; [done|].
  apply matchOrder_book_outcome in Hm.
  destruct Hm as [_|i j b s Hb Hs Hle m].
  { repeat split; try done; unfold total_matched; simpl; lia. }
  destruct Hb as (Hi & Hlb & Hvb & _). destruct Hs as (Hj & Hls & Hvs & _).
  pose proof (live_quantity _ Hvb). pose proof (live_quantity _ Hvs).
  pose proof (int_orders_load _ _ _ Hbi Hlb) as Hqb.
  pose proof (int_orders_load _ _ _ Hsi Hls) as Hqs.
  assert (fill_order b m
          = mkOrder (negb (quantity b - m =? 0)) (isBuy b) (quantity b - m) (price b))
    as -> by (apply fill_order_exact; [done..|lia]).
  assert (fill_order s m
          = mkOrder (negb (quantity s - m =? 0)) (isBuy s) (quantity s - m) (price s))
    as -> by (apply fill_order_exact; [done..|lia]).
  split; [|split; [done|split; [done|]]].
  - split; cbn [buyOrders sellOrders buyCount sellCount];
      rewrite ?length_insert; try done.
    + apply int_orders_insert; [done|]. unfold is_int in *. simpl. lia.
    + apply int_orders_insert; [done|]. unfold is_int in *. simpl. lia.
  - unfold remaining_buy, remaining_sell, total_matched.
    cbn [buyOrders sellOrders buyCount sellCount option_list foldr matchedQuantity].
    rewrite (total_quantity_take_store _ _ _ b) by (done || lia).
    rewrite (total_quantity_take_store _ _ _ s) by (done || lia).
    simpl. lia.
Qed.

Lemma book_op_effect (ticker : string) (op : BookOp) (ob : OrderBook) :
  book_ok ob → op_int op →
  buyCount ob + adds_on "Buy" [op] <= MAX_ORDERS_PER_SIDE →
  sellCount ob + adds_on "Sell" [op] <= MAX_ORDERS_PER_SIDE →
  ∃ ob' fills,
    book_op ticker op ob = Some (ob', fills) ∧ book_ok ob' ∧
    buyCount ob' = buyCount ob + adds_on "Buy" [op] ∧
    sellCount ob' = sellCount ob + adds_on "Sell" [op] ∧
    remaining_buy ob' + total_matched fills
      = remaining_buy ob + inserted_on "Buy" [op] ∧
    remaining_sell ob' + total_matched fills
      = remaining_sell ob + inserted_on "Sell" [op].
Proof.
  intros Hok Hint Hb Hs. destruct op as [orderType q p|]; simpl in *.
  - pose proof Hok as [Hbl Hsl Hbc Hsc Hbi Hsi]. destruct Hint as [Hq _].
    destruct (String.eqb_spec orderType "Buy") as [->|Hnb];
      [|destruct (String.eqb_spec orderType "Sell") as [->|Hns]].
    + cbn [String.eqb Ascii.eqb Bool.eqb] in *.
      rewrite addOrder_book_buy by (done || lia). simpl.
      eexists _, _. split; [done|].
      split; [|split; [simpl; lia|split; [simpl; lia|]]].
      * split; cbn [buyOrders sellOrders buyCount sellCount];
          rewrite ?length_insert; try done; try lia.
        by apply int_orders_insert.
      * unfold remaining_buy, remaining_sell, total_matched.
        cbn [buyOrders sellOrders buyCount sellCount foldr].
        replace (Z.to_nat (buyCount ob + 1)) with (S (Z.to_nat (buyCount ob)))
          by lia.
        rewrite total_quantity_take_append by lia. simpl. lia.
    + cbn [String.eqb Ascii.eqb Bool.eqb] in *.
      rewrite addOrder_book_sell by (done || lia). simpl.
      eexists _, _. split; [done|].
      split; [|split; [simpl; lia|split; [simpl; lia|]]].
      * split; cbn [buyOrders sellOrders buyCount sellCount];
          rewrite ?length_insert; try done; try lia.
        by apply int_orders_insert.
      * unfold remaining_buy, remaining_sell, total_matched.
        cbn [buyOrders sellOrders buyCount sellCount foldr].
        replace (Z.to_nat (sellCount ob + 1)) with (S (Z.to_nat (sellCount ob)))
          by lia.
        rewrite total_quantity_take_append by lia. simpl. lia.
    + rewrite addOrder_book_other by done. simpl.
      apply String.eqb_neq in Hnb, Hns. rewrite ?Hnb, ?Hns in Hb, Hs.
      exists ob, []. unfold total_matched. simpl. split_and!; try done; lia.
  - destruct (matchOrder_book_effect ticker ob Hok)
      as (ob' & f & -> & Hok' & Hbc & Hsc & Hrb & Hrs).
    simpl. exists ob', (option_list f). split_and!; try done; lia.
Qed.

(** ** Sequences of operations on one book *)

Lemma adds_on_nonneg (side : string) (ops : list BookOp) : 0 <= adds_on side ops.
Proof.
  induction ops as [|[orderType q p|] ops IH]; simpl; [done| |done].
  destruct (String.eqb orderType side); lia.
Qed.

Lemma adds_on_cons (side : string) (op : BookOp) (ops : list BookOp) :
  adds_on side (op :: ops) = adds_on side [op] + adds_on side ops.
Proof.
  destruct op as [orderType q p|]; simpl; [|done].
  destruct (String.eqb orderType side); lia.
Qed.

Lemma inserted_on_cons (side : string) (op : BookOp) (ops : list BookOp) :
  inserted_on side (op :: ops) = inserted_on side [op] + inserted_on side ops.
Proof.
  destruct op as [orderType q p|]; simpl; [|done].
  destruct (String.eqb orderType side); lia.
Qed.

(** As long as no side receives more orders than it has slots, every
    sequence of operations runs to its end, and on each side what was
    inserted is what remains plus what was matched. *)
Lemma run_book_conservation (ticker : string) (ops : list BookOp)
    (ob : OrderBook) :
  book_ok ob → Forall op_int ops →
  buyCount ob + adds_on "Buy" ops <= MAX_ORDERS_PER_SIDE →
  sellCount ob + adds_on "Sell" ops <= MAX_ORDERS_PER_SIDE →
  ∃ ob' fills,
    run_book ticker ops ob = Some (ob', fills) ∧ book_ok ob' ∧
    buyCount ob' = buyCount ob + adds_on "Buy" ops ∧
    sellCount ob' = sellCount ob + adds_on "Sell" ops ∧
    remaining_buy ob' + total_matched fills
      = remaining_buy ob + inserted_on "Buy" ops ∧
    remaining_sell ob' + total_matched fills
      = remaining_sell ob + inserted_on "Sell" ops.
Proof.
  revert ob. induction ops as [|op ops IH]; intros ob Hok Hint Hb Hs.
  - exists ob, []. unfold total_matched. simpl in *. split_and!; try done; lia.
  - apply Forall_cons_1 in Hint as [Hop Hint].
    rewrite adds_on_cons in Hb, Hs.
    pose proof (adds_on_nonneg "Buy" ops). pose proof (adds_on_nonneg "Sell" ops).
    destruct (book_op_effect ticker op ob Hok Hop)
      as (ob1 & fills1 & Hop1 & Hok1 & Hbc1 & Hsc1 & Hrb1 & Hrs1); [lia..|].
    destruct (IH ob1 Hok1 Hint)
      as (ob2 & fills2 & Hrun & Hok2 & Hbc2 & Hsc2 & Hrb2 & Hrs2); [lia..|].
    exists ob2, (fills1 ++ fills2).
    rewrite (adds_on_cons "Buy"), (adds_on_cons "Sell").
    rewrite (inserted_on_cons "Buy"), (inserted_on_cons "Sell").
    rewrite total_matched_app.
    split_and!; try done; try lia.
    cbn [run_book]. rewrite Hop1. simpl. by rewrite Hrun.
Qed.

(** ** From the global array to the book of one ticker *)

Lemma call_on_ticker (ticker : string) (op : BookOp)
    (books : list OrderBook) (ob : OrderBook) :
  load books (hashTicker ticker) = Some ob →
  call (on_ticker ticker op) books
  = '(ob', fills) ← book_op ticker op ob;
    Some (<[Z.to_nat (hashTicker ticker) := ob']> books, fills).
Proof.
  intros Hl. pose proof (load_lt _ _ _ Hl) as Hi.
  destruct op as [orderType q p|]; simpl.
  - unfold addOrder. rewrite Hl. simpl.
    destruct (addOrder_book orderType q p ob) as [ob'|]; simpl; [|done].
    by rewrite store_is_Some.
  - unfold matchOrder. rewrite Hl. simpl.
    destruct (matchOrder_book ticker ob) as [[ob' f]|]; simpl; [|done].
    by rewrite store_is_Some.
Qed.

(** Calls that all name one ticker act on its book alone. *)
Lemma run_on_ticker (ticker : string) (ops : list BookOp)
    (books : list OrderBook) (ob : OrderBook) :
  load books (hashTicker ticker) = Some ob →
  run (on_ticker ticker <$> ops) books
  = '(ob', fills) ← run_book ticker ops ob;
    Some (<[Z.to_nat (hashTicker ticker) := ob']> books, fills).
Proof.
  revert books ob. induction ops as [|op ops IH]; intros books ob Hl.
  - simpl. rewrite list_insert_id; [done|]. by apply load_Some in Hl as [_ ?].
  - pose proof (load_lt _ _ _ Hl) as Hi.
    cbn [fmap list_fmap run run_book]. rewrite (call_on_ticker _ _ _ ob) by done.
    destruct (book_op ticker op ob) as [[ob1 fills1]|]; simpl; [|done].
    rewrite (IH _ ob1).
    + destruct (run_book ticker ops ob1) as [[ob2 fills2]|]; simpl; [|done].
      by rewrite list_insert_insert_eq.
    + apply load_Some. split; [lia|]. apply list_lookup_insert_eq. lia.
Qed.

Lemma load_orderBooks_init (ticker : string) :
  load orderBooks_init (hashTicker ticker) = Some OrderBook_init.
Proof.
  pose proof (hashTicker_range ticker) as Hr.
  apply load_Some. split; [lia|].
  apply lookup_replicate_2. lia.
Qed.

Lemma load_insert_orderBooks_init (ticker : string) (ob : OrderBook) :
  load (<[Z.to_nat (hashTicker ticker) := ob]> orderBooks_init)
       (hashTicker ticker) = Some ob.
Proof.
  pose proof (hashTicker_range ticker) as Hr.
  apply load_Some. split; [lia|]. apply list_lookup_insert_eq.
  unfold orderBooks_init. rewrite length_replicate. lia.
Qed.

(** From the initial array, the fills printed by calls on one ticker are
    those of the run on its book; in particular one is defined exactly when
    the other is. *)
Lemma run_on_ticker_fills (ticker : string) (ops : list BookOp) :
  snd <$> run (on_ticker ticker <$> ops) orderBooks_init
  = snd <$> run_book ticker ops OrderBook_init.
Proof.
  rewrite (run_on_ticker _ _ _ OrderBook_init) by apply load_orderBooks_init.
  by destruct (run_book ticker ops OrderBook_init) as [[ob fills]|].
Qed.

(** * The claims *)

(** ** C1: no lost quantity *)

(** C1, as stated, fails: after a buy of 300 at 60, a sell of 100 at 55 and
    one call of [matchOrder], 400 were inserted, 200 remain and 100 were
    reported as matched.  The fill took 100 off both orders. *)
Lemma no_lost_quantity_counterexample :
  let ops := [Add "Buy" 300 60; Add "Sell" 100 55; Match] in
  ∃ books fills ob,
    run (on_ticker "AAPL" <$> ops) orderBooks_init = Some (books, fills) ∧
    load books (hashTicker "AAPL") = Some ob ∧
    inserted ops = 400 ∧ remaining ob = 200 ∧ total_matched fills = 100 ∧
    inserted ops ≠ remaining ob + total_matched fills.
Proof.
  intros ops.
  destruct (run_book "AAPL" ops OrderBook_init) as [[ob fills]|] eqn:Hrun;
    [|by vm_compute in Hrun].
  exists (<[Z.to_nat (hashTicker "AAPL") := ob]> orderBooks_init), fills, ob.
  split; [|split].
  - rewrite (run_on_ticker _ _ _ OrderBook_init) by apply load_orderBooks_init.
    by rewrite Hrun.
  - apply load_insert_orderBooks_init.
  - vm_compute in Hrun. injection Hrun as <- <-.
    split_and!; by vm_compute.
Qed.

(** The quantity of an order dropped on a full side is lost as well: after
    1025 buys of quantity 1 the book holds 1024 of them. *)
Lemma dropped_order_quantity_lost :
  let ops := replicate 1025 (Add "Buy" 1 1) in
  (remaining_buy <$> (fst <$> run_book "AAPL" ops OrderBook_init)) = Some 1024 ∧
  inserted_on "Buy" ops = 1025.
Proof. by vm_compute. Qed.

(** C1, amended: as long as no side receives more than
    [MAX_ORDERS_PER_SIDE] orders, every sequence of [addOrder] and
    [matchOrder] calls on one instrument runs to its end and, on each side
    separately, the quantity inserted equals the quantity remaining plus
    the matched quantity reported.  The statement holds of every sequence,
    hence after every prefix of one. *)
Theorem quantity_conserved_per_side (ticker : string) (ops : list BookOp) :
  Forall op_int ops →
  adds_on "Buy" ops <= MAX_ORDERS_PER_SIDE →
  adds_on "Sell" ops <= MAX_ORDERS_PER_SIDE →
  ∃ books fills ob,
    run (on_ticker ticker <$> ops) orderBooks_init = Some (books, fills) ∧
    load books (hashTicker ticker) = Some ob ∧
    inserted_on "Buy" ops = remaining_buy ob + total_matched fills ∧
    inserted_on "Sell" ops = remaining_sell ob + total_matched fills.
Proof.
  intros Hint Hb Hs.
  destruct (run_book_conservation ticker ops OrderBook_init OrderBook_init_ok Hint)
    as (ob & fills & Hrun & _ & _ & _ & Hrb & Hrs); [done..|].
  exists (<[Z.to_nat (hashTicker ticker) := ob]> orderBooks_init), fills, ob.
  split; [|split].
  - rewrite (run_on_ticker _ _ _ OrderBook_init) by apply load_orderBooks_init.
    by rewrite Hrun.
  - apply load_insert_orderBooks_init.
  - change (remaining_buy OrderBook_init) with 0 in Hrb.
    change (remaining_sell OrderBook_init) with 0 in Hrs. lia.
Qed.

Lemma quantity_conserved_per_side_witness :
  let ops := [Add "Buy" 300 60; Add "Sell" 100 55; Match] in
  ∃ books fills ob,
    run (on_ticker "AAPL" <$> ops) orderBooks_init = Some (books, fills) ∧
    load books (hashTicker "AAPL") = Some ob ∧
    inserted_on "Buy" ops = remaining_buy ob + total_matched fills ∧
    inserted_on "Sell" ops = remaining_sell ob + total_matched fills.
Proof.
  intros ops. apply (quantity_conserved_per_side "AAPL" ops).
  - repeat constructor; unfold is_int; lia.
  - vm_compute. discriminate.
  - vm_compute. discriminate.
Defined.

(** ** C2: insertion into a full side *)

Lemma full_buy_book_reached :
  run_book "AAPL" (replicate 1024 (Add "Buy" 1 1)) OrderBook_init
  = Some (full_buy_book, []).
Proof. by vm_compute. Qed.

(** C2, as stated, fails: [addOrder] returns [void], so the caller of an
    insertion into the full buy side sees the same normal return as for any
    other insertion, and the state is not left as it was: the counter of
    the side has moved from 1024 to 1025. *)
Lemma capacity_exceeded_counterexample :
  ∃ books books' ob',
    run (on_ticker "AAPL" <$> replicate 1024 (Add "Buy" 1 1)) orderBooks_init
      = Some (books, []) ∧
    load books (hashTicker "AAPL") = Some full_buy_book ∧
    addOrder "Buy" "AAPL" 1 1 books = Some books' ∧
    load books' (hashTicker "AAPL") = Some ob' ∧
    buyCount full_buy_book = 1024 ∧ buyCount ob' = 1025 ∧
    books' ≠ books.
Proof.
  set (books := <[Z.to_nat (hashTicker "AAPL") := full_buy_book]> orderBooks_init).
  set (ob' := mkOrderBook (buyOrders full_buy_book) 1025
                          (sellOrders full_buy_book) 0).
  assert (load books (hashTicker "AAPL") = Some full_buy_book) as Hl
    by apply load_insert_orderBooks_init.
  assert (addOrder "Buy" "AAPL" 1 1 books
          = Some (<[Z.to_nat (hashTicker "AAPL") := ob']> books)) as Hadd.
  { unfold addOrder. rewrite Hl. cbn [mbind option_bind].
    rewrite addOrder_book_buy_full by done. cbn [mbind option_bind].
    rewrite store_is_Some by eauto using load_lt. done. }
  exists books, (<[Z.to_nat (hashTicker "AAPL") := ob']> books), ob'.
  assert (load (<[Z.to_nat (hashTicker "AAPL") := ob']> books)
               (hashTicker "AAPL") = Some ob') as Hl'.
  { apply load_Some. split; [by vm_compute|].
    apply list_lookup_insert_eq. apply load_lt in Hl. lia. }
  split; [|split_and!].
  - rewrite (run_on_ticker _ _ _ OrderBook_init) by apply load_orderBooks_init.
    by rewrite full_buy_book_reached.
  - exact Hl.
  - exact Hadd.
  - exact Hl'.
  - reflexivity.
  - reflexivity.
  - intros Heq. rewrite Heq, Hl in Hl'. by inversion Hl'.
Qed.

(** C2, amended: when the counter of the target side has reached
    [MAX_ORDERS_PER_SIDE], [addOrder] returns normally and writes no order:
    both order arrays of the book and the counter of the other side are
    what they were, and so is every other book.  The order is dropped. *)
Theorem addOrder_full_side_drops (orderType ticker : string)
    (quantity price : Z) (books : list OrderBook) (ob : OrderBook) :
  load books (hashTicker ticker) = Some ob →
  (orderType = "Buy" ∧ MAX_ORDERS_PER_SIDE <= buyCount ob) ∨
  (orderType = "Sell" ∧ MAX_ORDERS_PER_SIDE <= sellCount ob) →
  ∃ books' ob',
    addOrder orderType ticker quantity price books = Some books' ∧
    load books' (hashTicker ticker) = Some ob' ∧
    buyOrders ob' = buyOrders ob ∧ sellOrders ob' = sellOrders ob ∧
    (orderType = "Buy" → sellCount ob' = sellCount ob) ∧
    (orderType = "Sell" → buyCount ob' = buyCount ob) ∧
    (∀ j, j ≠ hashTicker ticker → load books' j = load books j).
Proof.
  intros Hl Hfull. pose proof (load_lt _ _ _ Hl) as Hi.
  unfold addOrder. rewrite Hl. cbn [mbind option_bind].
  destruct Hfull as [[-> Hge]|[-> Hge]].
  - rewrite addOrder_book_buy_full by done. cbn [mbind option_bind].
    rewrite store_is_Some by done.
    eexists _, _. split; [done|]. split.
    { apply load_Some. split; [lia|]. apply list_lookup_insert_eq. lia. }
    split_and!; try done.
    intros j Hj. by apply (load_store_ne books _ (hashTicker ticker) j
                             _ (store_is_Some _ _ _ Hi)).
  - rewrite addOrder_book_sell_full by done. cbn [mbind option_bind].
    rewrite store_is_Some by done.
    eexists _, _. split; [done|]. split.
    { apply load_Some. split; [lia|]. apply list_lookup_insert_eq. lia. }
    split_and!; try done.
    intros j Hj. by apply (load_store_ne books _ (hashTicker ticker) j
                             _ (store_is_Some _ _ _ Hi)).
Qed.

Lemma addOrder_full_side_drops_witness :
  let books := <[Z.to_nat (hashTicker "AAPL") := full_buy_book]> orderBooks_init in
  ∃ books' ob',
    addOrder "Buy" "AAPL" 7 9 books = Some books' ∧
    load books' (hashTicker "AAPL") = Some ob' ∧
    buyOrders ob' = buyOrders full_buy_book ∧
    sellOrders ob' = sellOrders full_buy_book ∧
    ("Buy" = "Buy" → sellCount ob' = sellCount full_buy_book) ∧
    ("Buy" = "Sell" → buyCount ob' = buyCount full_buy_book) ∧
    (∀ j, j ≠ hashTicker "AAPL" → load books' j = load books j).
Proof.
  intros books.
  apply (addOrder_full_side_drops "Buy" "AAPL" 7 9 books full_buy_book).
  - apply load_insert_orderBooks_init.
  - left. split; [reflexivity|]. simpl. lia.
Defined.

(** ** C3: the shard router *)

(** C3, as stated, fails: the tickers "Aa" and "BB" are distinct and hash to
    the same bucket, so a sell entered for "BB" fills a buy entered for
    "Aa". *)
Lemma router_one_to_one_counterexample :
  "Aa" ≠ "BB" ∧
  hashTicker "Aa" = 64 ∧ hashTicker "BB" = 64 ∧
  snd <$> run [CallAdd "Buy" "Aa" 100 50; CallAdd "Sell" "BB" 100 50;
               CallMatch "Aa"] orderBooks_init
  = Some [mkFill "Aa" 100 50 50].
Proof. split; [done|]. by vm_compute. Qed.

(** C3, amended: the router maps every instrument identifier to exactly one
    of the [MAX_TICKERS] books, the one at index [hashTicker], which is
    always inside the array; the mapping is not one-to-one, and two
    identifiers with the same hash resolve to the same book, so that an
    insertion made under one is the insertion made under the other. *)
Theorem router_total_not_injective (ticker : string) (books : list OrderBook) :
  Z.of_nat (length books) = MAX_TICKERS →
  0 <= hashTicker ticker < MAX_TICKERS ∧
  (∃ ob, load books (hashTicker ticker) = Some ob) ∧
  (∀ other orderType quantity price,
     hashTicker other = hashTicker ticker →
     addOrder orderType other quantity price books
     = addOrder orderType ticker quantity price books) ∧
  (∀ other,
     hashTicker other = hashTicker ticker →
     (fst <$> matchOrder other books) = (fst <$> matchOrder ticker books)).
Proof.
  intros Hlen. pose proof (hashTicker_range ticker) as Hr.
  split; [done|]. split; [|split].
  - apply load_is_Some. lia.
  - intros other orderType q p Hh. unfold addOrder. by rewrite Hh.
  - intros other Hh. unfold matchOrder. rewrite Hh.
    destruct (load books (hashTicker ticker)) as [ob|]; simpl; [|done].
    unfold matchOrder_book.
    destruct (scanBuy _ _ _ _ _) as [[bi bp]|]; simpl; [|done].
    destruct (scanSell _ _ _ _ _) as [[si sp]|]; simpl; [|done].
    destruct (_ && _ && _); simpl.
    + destruct (load (buyOrders ob) bi) as [b|]; simpl; [|done].
      destruct (load (sellOrders ob) si) as [s|]; simpl; [|done].
      destruct (store (buyOrders ob) bi _) as [buys|]; simpl; [|done].
      destruct (store (sellOrders ob) si _) as [sells|]; simpl; [|done].
      by destruct (store books _ _).
    + by destruct (store books _ _).
Qed.

Lemma router_total_not_injective_witness :
  0 <= hashTicker "Aa" < MAX_TICKERS ∧
  (∃ ob, load orderBooks_init (hashTicker "Aa") = Some ob) ∧
  (∀ other orderType quantity price,
     hashTicker other = hashTicker "Aa" →
     addOrder orderType other quantity price orderBooks_init
     = addOrder orderType "Aa" quantity price orderBooks_init) ∧
  (∀ other,
     hashTicker other = hashTicker "Aa" →
     (fst <$> matchOrder other orderBooks_init)
     = (fst <$> matchOrder "Aa" orderBooks_init)).
Proof.
  apply (router_total_not_injective "Aa" orderBooks_init).
  unfold orderBooks_init. rewrite length_replicate. unfold MAX_TICKERS. lia.
Defined.

(** ** matchOrder on the global array *)

(** A call of [matchOrder] is the call on the ticker's book, written
    back. *)
Lemma matchOrder_on_book (ticker : string) (books : list OrderBook)
    (ob ob' : OrderBook) (f : option Fill) :
  load books (hashTicker ticker) = Some ob →
  matchOrder_book ticker ob = Some (ob', f) →
  matchOrder ticker books
  = Some (<[Z.to_nat (hashTicker ticker) := ob']> books, f).
Proof.
  intros Hl Hm. unfold matchOrder. rewrite Hl. cbn [mbind option_bind].
  rewrite Hm. cbn [mbind option_bind].
  rewrite store_is_Some by eauto using load_lt. done.
Qed.

Lemma matchOrder_inv (ticker : string) (books books' : list OrderBook)
    (f : option Fill) :
  matchOrder ticker books = Some (books', f) →
  ∃ ob ob',
    load books (hashTicker ticker) = Some ob ∧
    matchOrder_book ticker ob = Some (ob', f) ∧
    load books' (hashTicker ticker) = Some ob' ∧
    (∀ j, j ≠ hashTicker ticker → load books' j = load books j).
Proof.
  unfold matchOrder. intros Hm.
  destruct (load books (hashTicker ticker)) as [ob|] eqn:Hl;
    cbn [mbind option_bind] in Hm; [|done].
  destruct (matchOrder_book ticker ob) as [[ob' f']|] eqn:Hb;
    cbn [mbind option_bind] in Hm; [|done].
  destruct (store books (hashTicker ticker) ob') as [books1|] eqn:Hs;
    cbn [mbind option_bind] in Hm; [|done].
  inversion Hm; subst. exists ob, ob'. split_and!; try done.
  - by apply (load_store_eq books _ _ _ Hs).
  - intros j Hj. by apply (load_store_ne books _ _ _ _ Hs).
Qed.

(** On well-formed books the call is defined. *)
Lemma matchOrder_total (ticker : string) (books : list OrderBook)
    (ob : OrderBook) :
  load books (hashTicker ticker) = Some ob → book_ok ob →
  is_Some (matchOrder ticker books).
Proof.
  intros Hl Hok.
  destruct (matchOrder_book_total ticker ob) as [[ob' f] Hm];
    [destruct Hok; lia..|].
  rewrite (matchOrder_on_book _ _ _ _ _ Hl Hm). eauto.
Qed.

(** ** C4: the quantity of a fill *)

Lemma partial_fill_book_reached :
  run_book "AAPL" [Add "Buy" 300 60; Add "Sell" 100 55] OrderBook_init
  = Some (partial_fill_book, []).
Proof. by vm_compute. Qed.

Lemma partial_fill_book_match :
  matchOrder_book "AAPL" partial_fill_book
  = Some (partial_fill_book_after, Some (mkFill "AAPL" 100 60 55)).
Proof. by vm_compute. Qed.

(** The book was reached by well-typed calls, so it is well-formed. *)
Lemma partial_fill_book_ok : book_ok partial_fill_book.
Proof.
  destruct (run_book_conservation "AAPL"
              [Add "Buy" 300 60; Add "Sell" 100 55] OrderBook_init
              OrderBook_init_ok)
    as (ob & fills & Hrun & Hok & _).
  - repeat constructor; by vm_compute.
  - by vm_compute.
  - by vm_compute.
  - rewrite partial_fill_book_reached in Hrun. by injection Hrun as <- _.
Qed.

(** C4: whenever [matchOrder] reports a fill, the fill is between the
    selected buy order [b] and the selected sell order [s] of the book, its
    quantity is the minimum of their two quantities, both quantities have
    gone down by exactly that amount, and each of the two orders is active
    afterwards exactly when its quantity is not zero.  In the scenario of a
    buy of 300 at 60 and a sell of 100 at 55 the call reports one fill of
    100, leaves the buy active with 200 and the sell inactive with 0. *)
Theorem fill_is_minimum_of_both (ticker : string)
    (books books' : list OrderBook) (ob : OrderBook) (f : Fill) :
  load books (hashTicker ticker) = Some ob →
  int_orders (buyOrders ob) → int_orders (sellOrders ob) →
  matchOrder ticker books = Some (books', Some f) →
  (∃ ob' i j b s b' s',
     load books' (hashTicker ticker) = Some ob' ∧
     selected_buy ob i b ∧ selected_sell ob j s ∧
     matchedQuantity f = Z.min (quantity b) (quantity s) ∧
     load (buyOrders ob') i = Some b' ∧ load (sellOrders ob') j = Some s' ∧
     quantity b' = quantity b - matchedQuantity f ∧
     quantity s' = quantity s - matchedQuantity f ∧
     active b' = negb (quantity b' =? 0) ∧
     active s' = negb (quantity s' =? 0)) ∧
  (∃ ob2 fills,
     run_book "AAPL" [Add "Buy" 300 60; Add "Sell" 100 55; Match] OrderBook_init
       = Some (ob2, fills) ∧
     fills = [mkFill "AAPL" 100 60 55] ∧
     load (buyOrders ob2) 0 = Some (mkOrder true true 200 60) ∧
     load (sellOrders ob2) 0 = Some (mkOrder false false 0 55)).
Proof.
  intros Hl Hbi Hsi Hm. split.
  - apply matchOrder_inv in Hm as (ob0 & ob' & Hl0 & Hm & Hl' & _).
    rewrite Hl in Hl0. injection Hl0 as <-.
    apply matchOrder_book_outcome in Hm.
    inversion Hm as [|i j b s Hb Hs Hle m Hob' Hf]; subst. clear Hm.
    pose proof Hb as (Hi & Hlb & Hvb & _). pose proof Hs as (Hj & Hls & Hvs & _).
    pose proof (live_quantity _ Hvb). pose proof (live_quantity _ Hvs).
    pose proof (int_orders_load _ _ _ Hbi Hlb) as Hqb.
    pose proof (int_orders_load _ _ _ Hsi Hls) as Hqs.
    eexists _, i, j, b, s, _, _. split; [exact Hl'|].
    split; [done|]. split; [done|]. split; [done|].
    cbn [buyOrders sellOrders matchedQuantity].
    split; [|split].
    { apply load_Some. split; [lia|]. apply list_lookup_insert_eq.
      apply load_lt in Hlb. lia. }
    { apply load_Some. split; [lia|]. apply list_lookup_insert_eq.
      apply load_lt in Hls. lia. }
    rewrite !fill_order_exact by (done || lia). done.
  - exists partial_fill_book_after, [mkFill "AAPL" 100 60 55].
    split; [by vm_compute|]. split; [done|]. split; by vm_compute.
Qed.

Lemma fill_is_minimum_of_both_witness :
  let books := <[Z.to_nat (hashTicker "AAPL") := partial_fill_book]> orderBooks_init in
  let books' := <[Z.to_nat (hashTicker "AAPL") := partial_fill_book_after]> books in
  let f := mkFill "AAPL" 100 60 55 in
  ∃ ob' i j b s b' s',
     load books' (hashTicker "AAPL") = Some ob' ∧
     selected_buy partial_fill_book i b ∧ selected_sell partial_fill_book j s ∧
     matchedQuantity f = Z.min (quantity b) (quantity s) ∧
     load (buyOrders ob') i = Some b' ∧ load (sellOrders ob') j = Some s' ∧
     quantity b' = quantity b - matchedQuantity f ∧
     quantity s' = quantity s - matchedQuantity f ∧
     active b' = negb (quantity b' =? 0) ∧
     active s' = negb (quantity s' =? 0).
Proof.
  intros books books' f.
  refine (proj1 (fill_is_minimum_of_both "AAPL" books books' partial_fill_book f
                   _ _ _ _)).
  - apply load_insert_orderBooks_init.
  - apply partial_fill_book_ok.
  - apply partial_fill_book_ok.
  - apply (matchOrder_on_book "AAPL" books partial_fill_book).
    + apply load_insert_orderBooks_init.
    + apply partial_fill_book_match.
Defined.

(** ** C5: which orders the scans select *)

Lemma selected_buy_live (ob : OrderBook) (i : Z) (b : Order) :
  selected_buy ob i b → is_live_buy ob b.
Proof. intros (Hi & Hl & Hv & _). by exists i. Qed.

Lemma selected_sell_live (ob : OrderBook) (j : Z) (s : Order) :
  selected_sell ob j s → is_live_sell ob s.
Proof. intros (Hj & Hl & Hv & _). by exists j. Qed.

(** The selected buy has the highest price of all live buys and is the
    earliest at that price; likewise for the lowest sell. *)
Lemma selected_buy_price_then_time (ob : OrderBook) (i : Z) (b : Order) :
  selected_buy ob i b →
  (∀ o, is_live_buy ob o → price o <= price b) ∧
  (∀ k o, 0 <= k < buyCount ob → load (buyOrders ob) k = Some o →
          live o = true → price o = price b → i <= k).
Proof.
  intros (Hi & Hl & Hv & Hpos & Hmax & Hfirst). split.
  - intros o (k & Hk & Hlk & Hvk). by apply (Hmax k).
  - intros k o Hk Hlk Hvk Hp.
    destruct (Z.le_gt_cases i k) as [|Hlt]; [done|].
    specialize (Hfirst k o ltac:(lia) Hlk Hvk). lia.
Qed.

Lemma selected_sell_price_then_time (ob : OrderBook) (j : Z) (s : Order) :
  selected_sell ob j s →
  (∀ o, is_live_sell ob o → price s <= price o) ∧
  (∀ k o, 0 <= k < sellCount ob → load (sellOrders ob) k = Some o →
          live o = true → price o = price s → j <= k).
Proof.
  intros (Hj & Hl & Hv & Hpos & Hmin & Hfirst). split.
  - intros o (k & Hk & Hlk & Hvk). by apply (Hmin k).
  - intros k o Hk Hlk Hvk Hp.
    destruct (Z.le_gt_cases j k) as [|Hlt]; [done|].
    specialize (Hfirst k o ltac:(lia) Hlk Hvk). lia.
Qed.

(** With two buys at the same price, the one inserted first is consumed
    first. *)
Lemma equal_price_earliest_first :
  (λ '(ob, fills), (load (buyOrders ob) 0, load (buyOrders ob) 1, fills))
    <$> run_book "AAPL" [Add "Buy" 10 50; Add "Buy" 20 50; Add "Sell" 5 50; Match]
          OrderBook_init
  = Some (Some (mkOrder true true 5 50), Some (mkOrder true true 20 50),
          [mkFill "AAPL" 5 50 50]).
Proof. by vm_compute. Qed.

(** C5 at the failing input: the only sell order, 10 at 1000000, is live
    and therefore the live sell with the lowest price, and the buy of 10 at
    2000000 crosses it; yet the sell loop returns index -1 because no price
    is below its initial [bestSellPrice] of 1000000, and [matchOrder]
    leaves the book as it was and reports nothing. *)
Theorem best_sell_missed_at_initial_price :
  snd <$> run [CallAdd "Sell" "AAPL" 10 1000000; CallAdd "Buy" "AAPL" 10 2000000;
               CallMatch "AAPL"] orderBooks_init
  = Some [] ∧
  ∃ ob s,
    run_book "AAPL" [Add "Sell" 10 1000000; Add "Buy" 10 2000000] OrderBook_init
      = Some (ob, []) ∧
    s = mkOrder true false 10 1000000 ∧
    is_live_sell ob s ∧ (∀ o, is_live_sell ob o → price s <= price o) ∧
    is_live_buy ob (mkOrder true true 10 2000000) ∧
    scanSell (sellOrders ob) (Z.to_nat (sellCount ob)) 0 (-1) 1000000
      = Some (-1, 1000000) ∧
    matchOrder_book "AAPL" ob = Some (ob, None).
Proof.
  split.
  { etrans;
      [exact (run_on_ticker_fills "AAPL"
                [Add "Sell" 10 1000000; Add "Buy" 10 2000000; Match])|].
    by vm_compute. }
  destruct (run_book "AAPL" [Add "Sell" 10 1000000; Add "Buy" 10 2000000]
              OrderBook_init) as [[ob fills]|] eqn:Hrun;
    vm_compute in Hrun; [|done].
  injection Hrun as <- <-.
  eexists _, _. split; [done|]. split; [done|]. split_and!.
  - exists 0. by vm_compute.
  - intros o (j & Hj & Hl & Hv). cbn [sellCount] in Hj.
    assert (j = 0) as -> by lia. vm_compute in Hl. injection Hl as <-.
    by vm_compute.
  - exists 0. by vm_compute.
  - by vm_compute.
  - by vm_compute.
Qed.

(** ** C6: no match without a cross *)

(** C6: a call of [matchOrder] reports no fill when the buy side has no
    live order, when the sell side has no live order, and when the best buy
    price is strictly below the best sell price; and every fill it reports
    has a buy price greater than or equal to its sell price. *)
Theorem match_only_on_cross (ticker : string)
    (books books' : list OrderBook) (ob : OrderBook) (f : option Fill) :
  load books (hashTicker ticker) = Some ob →
  matchOrder ticker books = Some (books', f) →
  ((∀ o, ¬ is_live_buy ob o) → f = None) ∧
  ((∀ o, ¬ is_live_sell ob o) → f = None) ∧
  (∀ pb ps, best_buy_price ob pb → best_sell_price ob ps → pb < ps →
            f = None) ∧
  (∀ fill, f = Some fill → fillSellPrice fill <= fillBuyPrice fill).
Proof.
  intros Hl Hm.
  apply matchOrder_inv in Hm as (ob0 & ob' & Hl0 & Hm & _ & _).
  rewrite Hl in Hl0. injection Hl0 as <-.
  apply matchOrder_book_outcome in Hm.
  destruct Hm as [_|i j b s Hb Hs Hle m]; [by split_and!|].
  split_and!.
  - intros Hnone. destruct (Hnone b). by apply (selected_buy_live ob i).
  - intros Hnone. destruct (Hnone s). by apply (selected_sell_live ob j).
  - intros pb ps [(ob1 & Hlb1 & <-) Hmaxb] [(os1 & Hls1 & <-) Hmins] Hlt.
    pose proof (Hmaxb b (selected_buy_live _ _ _ Hb)).
    pose proof (Hmins s (selected_sell_live _ _ _ Hs)). lia.
  - intros fill [= <-]. done.
Qed.

Lemma match_only_on_cross_witness :
  let books := <[Z.to_nat (hashTicker "AAPL") := partial_fill_book]> orderBooks_init in
  let f := Some (mkFill "AAPL" 100 60 55) in
  ((∀ o, ¬ is_live_buy partial_fill_book o) → f = None) ∧
  ((∀ o, ¬ is_live_sell partial_fill_book o) → f = None) ∧
  (∀ pb ps, best_buy_price partial_fill_book pb →
            best_sell_price partial_fill_book ps → pb < ps → f = None) ∧
  (∀ fill, f = Some fill → fillSellPrice fill <= fillBuyPrice fill).
Proof.
  intros books f.
  apply (match_only_on_cross "AAPL" books
           (<[Z.to_nat (hashTicker "AAPL") := partial_fill_book_after]> books)
           partial_fill_book f).
  - apply load_insert_orderBooks_init.
  - apply (matchOrder_on_book "AAPL" books partial_fill_book).
    + apply load_insert_orderBooks_init.
    + apply partial_fill_book_match.
Defined.

(** A book whose best buy, 40, is below its best sell, 45: the call is
    defined and reports nothing. *)
Lemma no_cross_no_fill :
  snd <$> run_book "AAPL" [Add "Buy" 10 40; Add "Sell" 10 45; Match] OrderBook_init
  = Some [].
Proof. by vm_compute. Qed.

(** ** C7: one fill per call *)

(** C7, as stated, fails: with a buy of 100 at 60 and sells of 50 at 55 and
    50 at 56, one call fills 50 against the sell at 55 and returns; the buy,
    live with 50 at 60, still crosses the live sell of 50 at 56. *)
Lemma drain_counterexample :
  snd <$> run [CallAdd "Buy" "AAPL" 100 60; CallAdd "Sell" "AAPL" 50 55;
               CallAdd "Sell" "AAPL" 50 56; CallMatch "AAPL"] orderBooks_init
  = Some [mkFill "AAPL" 50 60 55] ∧
  ∃ ob b s,
    run_book "AAPL"
      [Add "Buy" 100 60; Add "Sell" 50 55; Add "Sell" 50 56; Match]
      OrderBook_init
      = Some (ob, [mkFill "AAPL" 50 60 55]) ∧
    b = mkOrder true true 50 60 ∧ s = mkOrder true false 50 56 ∧
    is_live_buy ob b ∧ is_live_sell ob s ∧ price s <= price b.
Proof.
  split.
  { etrans;
      [exact (run_on_ticker_fills "AAPL"
                [Add "Buy" 100 60; Add "Sell" 50 55; Add "Sell" 50 56; Match])|].
    by vm_compute. }
  destruct (run_book "AAPL"
              [Add "Buy" 100 60; Add "Sell" 50 55; Add "Sell" 50 56; Match]
              OrderBook_init) as [[ob fills]|] eqn:Hrun;
    vm_compute in Hrun; [|done].
  injection Hrun as <- <-.
  eexists _, _, _. split; [done|]. split; [done|]. split; [done|]. split_and!.
  - exists 0. by vm_compute.
  - exists 1. by vm_compute.
  - by vm_compute.
Qed.

(** C7, amended: on a well-formed book a single call of [matchOrder]
    returns after at most one find-and-fill step.  When it reports no fill
    the book is unchanged; when it reports a fill, the two counters are
    unchanged and the order arrays differ from the old ones in the slot of
    the selected buy and the slot of the selected sell only.  Crosses may
    remain. *)
Theorem matchOrder_single_shot (ticker : string) (books : list OrderBook)
    (ob : OrderBook) :
  load books (hashTicker ticker) = Some ob → book_ok ob →
  ∃ books' f ob',
    matchOrder ticker books = Some (books', f) ∧
    load books' (hashTicker ticker) = Some ob' ∧
    (f = None → ob' = ob) ∧
    (∀ fill, f = Some fill →
       ∃ i j b s,
         selected_buy ob i b ∧ selected_sell ob j s ∧
         fill = mkFill ticker (Z.min (quantity b) (quantity s))
                       (price b) (price s) ∧
         buyCount ob' = buyCount ob ∧ sellCount ob' = sellCount ob ∧
         buyOrders ob'
           = <[Z.to_nat i := fill_order b (matchedQuantity fill)]> (buyOrders ob) ∧
         sellOrders ob'
           = <[Z.to_nat j := fill_order s (matchedQuantity fill)]> (sellOrders ob)).
Proof.
  intros Hl Hok.
  destruct (matchOrder_total ticker books ob Hl Hok) as [[books' f] Hm].
  pose proof Hm as (ob0 & ob' & Hl0 & Hmb & Hl' & _)%matchOrder_inv.
  rewrite Hl in Hl0. injection Hl0 as <-.
  exists books', f, ob'. split; [done|]. split; [done|].
  apply matchOrder_book_outcome in Hmb.
  destruct Hmb as [_|i j b s Hb Hs Hle m]; [by split|].
  split; [done|]. intros fill [= <-]. by exists i, j, b, s.
Qed.

Lemma matchOrder_single_shot_witness :
  let books := <[Z.to_nat (hashTicker "AAPL") := partial_fill_book]> orderBooks_init in
  ∃ books' f ob',
    matchOrder "AAPL" books = Some (books', f) ∧
    load books' (hashTicker "AAPL") = Some ob' ∧
    (f = None → ob' = partial_fill_book) ∧
    (∀ fill, f = Some fill →
       ∃ i j b s,
         selected_buy partial_fill_book i b ∧
         selected_sell partial_fill_book j s ∧
         fill = mkFill "AAPL" (Z.min (quantity b) (quantity s))
                       (price b) (price s) ∧
         buyCount ob' = buyCount partial_fill_book ∧
         sellCount ob' = sellCount partial_fill_book ∧
         buyOrders ob'
           = <[Z.to_nat i := fill_order b (matchedQuantity fill)]>
               (buyOrders partial_fill_book) ∧
         sellOrders ob'
           = <[Z.to_nat j := fill_order s (matchedQuantity fill)]>
               (sellOrders partial_fill_book)).
Proof.
  intros books.
  apply (matchOrder_single_shot "AAPL" books partial_fill_book).
  - apply load_insert_orderBooks_init.
  - apply partial_fill_book_ok.
Defined.

(** ** C8: orders with a non-positive price or quantity *)

(** C8, as stated, fails: a sell of 10 at the price -5 is not rejected.  The
    call returns normally, the book is no longer the initial one, the order
    rests live in slot 0, and the next call of [matchOrder] fills it against
    a buy at 1. *)
Lemma invalid_order_counterexample :
  ∃ books ob,
    addOrder "Sell" "AAPL" 10 (-5) orderBooks_init = Some books ∧
    load books (hashTicker "AAPL") = Some ob ∧
    ob ≠ OrderBook_init ∧
    is_live_sell ob (mkOrder true false 10 (-5)) ∧
    snd <$> run_book "AAPL" [Add "Sell" 10 (-5); Add "Buy" 10 1; Match]
              OrderBook_init
    = Some [mkFill "AAPL" 10 1 (-5)].
Proof.
  destruct (addOrder_book "Sell" 10 (-5) OrderBook_init) as [ob|] eqn:Hadd;
    vm_compute in Hadd; [|done].
  injection Hadd as <-.
  eexists _, _. split; [|split; [apply load_insert_orderBooks_init|]].
  - unfold addOrder. rewrite load_orderBooks_init. cbn [mbind option_bind].
    rewrite addOrder_book_sell by (apply OrderBook_init_ok || by vm_compute).
    cbn [mbind option_bind]. rewrite store_is_Some; [reflexivity|].
    pose proof (load_orderBooks_init "AAPL") as Hl. by apply load_lt in Hl.
  - split_and!.
    + intros Heq. apply (f_equal sellCount) in Heq. by vm_compute in Heq.
    + exists 0. by vm_compute.
    + by vm_compute.
Qed.

(** C8, amended: [addOrder] validates nothing.  Whatever the sign of the
    quantity and of the price, an order for a side that has a free slot is
    stored as given, active, in the slot at the side's counter, and the
    counter advances by one.  An order with a non-positive quantity never
    trades all the same: every fill [matchOrder] reports has a positive
    quantity. *)
Theorem addOrder_stores_any_order (orderType ticker : string)
    (quantity price : Z) (books : list OrderBook) (ob : OrderBook) :
  load books (hashTicker ticker) = Some ob → book_ok ob →
  (orderType = "Buy" ∧ buyCount ob < MAX_ORDERS_PER_SIDE) ∨
  (orderType = "Sell" ∧ sellCount ob < MAX_ORDERS_PER_SIDE) →
  (∃ books' ob',
     addOrder orderType ticker quantity price books = Some books' ∧
     load books' (hashTicker ticker) = Some ob' ∧
     (orderType = "Buy" →
        load (buyOrders ob') (buyCount ob)
          = Some (mkOrder true true quantity price) ∧
        buyCount ob' = buyCount ob + 1) ∧
     (orderType = "Sell" →
        load (sellOrders ob') (sellCount ob)
          = Some (mkOrder true false quantity price) ∧
        sellCount ob' = sellCount ob + 1)) ∧
  (∀ books2 fill,
     matchOrder ticker books = Some (books2, Some fill) →
     0 < matchedQuantity fill).
Proof.
  intros Hl Hok Hside. pose proof (load_lt _ _ _ Hl) as Hi. split.
  - pose proof Hok as [Hbl Hsl Hbc Hsc _ _].
    unfold addOrder. rewrite Hl. cbn [mbind option_bind].
    destruct Hside as [[-> Hlt]|[-> Hlt]].
    + rewrite addOrder_book_buy by done. cbn [mbind option_bind].
      rewrite store_is_Some by done.
      eexists _, _. split; [done|]. split.
      { apply load_Some. split; [lia|]. apply list_lookup_insert_eq. lia. }
      cbn [buyOrders sellOrders buyCount sellCount]. split; [|done].
      intros _. split; [|done].
      apply load_Some. split; [lia|]. apply list_lookup_insert_eq. lia.
    + rewrite addOrder_book_sell by done. cbn [mbind option_bind].
      rewrite store_is_Some by done.
      eexists _, _. split; [done|]. split.
      { apply load_Some. split; [lia|]. apply list_lookup_insert_eq. lia. }
      cbn [buyOrders sellOrders buyCount sellCount]. split; [done|].
      intros _. split; [|done].
      apply load_Some. split; [lia|]. apply list_lookup_insert_eq. lia.
  - intros books2 fill Hm.
    apply matchOrder_inv in Hm as (ob0 & ob' & Hl0 & Hm & _ & _).
    apply matchOrder_book_outcome in Hm.
    inversion Hm as [|i j b s Hb Hs Hle m Hob' Hf]; subst.
    destruct Hb as (_ & _ & Hvb & _). destruct Hs as (_ & _ & Hvs & _).
    apply live_quantity in Hvb, Hvs. cbn [matchedQuantity]. lia.
Qed.

Lemma addOrder_stores_any_order_witness :
  (∃ books' ob',
     addOrder "Sell" "AAPL" 0 (-5) orderBooks_init = Some books' ∧
     load books' (hashTicker "AAPL") = Some ob' ∧
     ("Sell" = "Buy" →
        load (buyOrders ob') (buyCount OrderBook_init)
          = Some (mkOrder true true 0 (-5)) ∧
        buyCount ob' = buyCount OrderBook_init + 1) ∧
     ("Sell" = "Sell" →
        load (sellOrders ob') (sellCount OrderBook_init)
          = Some (mkOrder true false 0 (-5)) ∧
        sellCount ob' = sellCount OrderBook_init + 1)) ∧
  (∀ books2 fill,
     matchOrder "AAPL" orderBooks_init = Some (books2, Some fill) →
     0 < matchedQuantity fill).
Proof.
  apply (addOrder_stores_any_order "Sell" "AAPL" 0 (-5) orderBooks_init
           OrderBook_init).
  - apply load_orderBooks_init.
  - apply OrderBook_init_ok.
  - right. split; [reflexivity|]. simpl. unfold MAX_ORDERS_PER_SIDE. lia.
Defined.

(** ** C9: the counters and the size of the arrays *)

(** A counter above the size of its array makes [matchOrder] read past the
    array. *)
Lemma matchOrder_book_past_array (ticker : string) (ob : OrderBook) :
  Z.of_nat (length (buyOrders ob)) < buyCount ob →
  matchOrder_book ticker ob = None.
Proof.
  intros Hgt. unfold matchOrder_book.
  rewrite scanBuy_out_of_bounds by lia. done.
Qed.

(** C9 at the failing input: 1025 insertions on the buy side all return,
    the last one on the full side, and leave [buyCount] at 1025, above
    [MAX_ORDERS_PER_SIDE]; the first loop of the next [matchOrder] then runs
    its index up to 1024 and reads [buyOrders[1024]], outside of the
    array. *)
Theorem counter_runs_past_array :
  snd <$> run (on_ticker "AAPL" <$> replicate 1025 (Add "Buy" 1 1))
            orderBooks_init
  = Some [] ∧
  run (on_ticker "AAPL" <$> (replicate 1025 (Add "Buy" 1 1) ++ [Match]))
      orderBooks_init
  = None ∧
  ∃ ob,
    run_book "AAPL" (replicate 1025 (Add "Buy" 1 1)) OrderBook_init
      = Some (ob, []) ∧
    buyCount ob = 1025 ∧ MAX_ORDERS_PER_SIDE < buyCount ob ∧
    Z.of_nat (length (buyOrders ob)) = MAX_ORDERS_PER_SIDE ∧
    scanBuy (buyOrders ob) 1024 0 (-1) 0 = Some (0, 1) ∧
    load (buyOrders ob) 1024 = None ∧
    scanBuy (buyOrders ob) (Z.to_nat (buyCount ob)) 0 (-1) 0 = None ∧
    matchOrder_book "AAPL" ob = None.
Proof.
  split; [|split].
  - rewrite run_on_ticker_fills. by vm_compute.
  - rewrite (run_on_ticker _ _ _ OrderBook_init) by apply load_orderBooks_init.
    assert (run_book "AAPL" (replicate 1025 (Add "Buy" 1 1) ++ [Match])
              OrderBook_init = None) as -> by (by vm_compute).
    done.
  - exists (mkOrderBook (buyOrders full_buy_book) 1025
                        (sellOrders full_buy_book) 0).
    split_and!; by vm_compute.
Qed.

(** ** C10: two threads on one crossing pair *)

(** The race scenario starts from a state the program reaches. *)
Lemma race_book_reached :
  run_book "AAPL" [Add "Buy" 100 50; Add "Sell" 100 50] OrderBook_init
  = Some (Threads.race_book, []).
Proof. by vm_compute. Qed.

Lemma load_insert_eq {A : Type} (a : list A) (i : Z) (x : A) :
  0 <= i < Z.of_nat (length a) → load (<[Z.to_nat i := x]> a) i = Some x.
Proof.
  intros Hi. apply load_Some. split; [lia|]. apply list_lookup_insert_eq. lia.
Qed.

(** The subtraction followed by the test is the fill of the sequential
    model. *)
Lemma retire_fetch_sub (o : Order) (m : Z) :
  Threads.retire (Threads.fetch_sub o m) = fill_order o m.
Proof.
  unfold Threads.retire, Threads.fetch_sub, fill_order. simpl.
  by destruct (int_wrap (quantity o - m) =? 0).
Qed.

Lemma alone_S (ticker : string) (n : nat) (th : Threads.Thread) (ob : OrderBook) :
  Threads.alone ticker (S n) th ob
  = '(th1, ob1, fills1) ← Threads.step ticker th ob;
    '(th2, ob2, fills2) ← Threads.alone ticker n th1 ob1;
    Some (th2, ob2, fills1 ++ fills2).
Proof. done. Qed.

(** A finished thread stays where it is. *)
Lemma alone_AtEnd (ticker : string) (n : nat) (th : Threads.Thread)
    (ob : OrderBook) :
  Threads.pc th = Threads.AtEnd →
  Threads.alone ticker n th ob = Some (th, ob, []).
Proof.
  intros Hpc. induction n as [|n IH]; [done|].
  rewrite alone_S. unfold Threads.step. rewrite Hpc.
  cbn [mbind option_bind]. rewrite IH. done.
Qed.

Ltac thread_step :=
  rewrite alone_S; unfold Threads.step at 1;
  cbn [Threads.pc Threads.goto Threads.bestBuyIndex Threads.bestSellIndex
       Threads.bestBuyPrice Threads.bestSellPrice Threads.buyQty
       Threads.sellQty Threads.matched Threads.with_buys Threads.with_sells
       buyOrders sellOrders buyCount sellCount mbind option_bind].

(** A thread that runs alone through its eight steps does what the
    sequential [matchOrder] does. *)
Lemma thread_alone_is_matchOrder (ticker : string) (ob : OrderBook) :
  (λ '(_, ob', fills), (ob', fills))
    <$> Threads.alone ticker 8 Threads.start ob
  = (λ '(ob', f), (ob', option_list f)) <$> matchOrder_book ticker ob.
Proof.
  unfold matchOrder_book, Threads.start. thread_step.
  destruct (scanBuy _ _ _ _ _) as [[bi bp]|]; cbn [mbind option_bind]; [|done].
  destruct (scanSell _ _ _ _ _) as [[si sp]|]; cbn [mbind option_bind]; [|done].
  destruct (negb (bi =? -1) && negb (si =? -1) && (sp <=? bp)).
  2: { by rewrite alone_AtEnd. }
  thread_step.
  destruct (load (buyOrders ob) bi) as [b|] eqn:Hb; cbn [mbind option_bind]; [|done].
  thread_step.
  destruct (load (sellOrders ob) si) as [s|] eqn:Hs; cbn [mbind option_bind]; [|done].
  pose proof (load_lt _ _ _ Hb) as Hbi. pose proof (load_lt _ _ _ Hs) as Hsi.
  thread_step. rewrite Hb. cbn [mbind option_bind].
  rewrite !store_is_Some by done. cbn [mbind option_bind].
  thread_step. rewrite Hs. cbn [mbind option_bind].
  rewrite !store_is_Some by done. cbn [mbind option_bind].
  thread_step. rewrite load_insert_eq by done. cbn [mbind option_bind].
  rewrite store_is_Some by (by rewrite length_insert). cbn [mbind option_bind].
  thread_step. rewrite load_insert_eq by done. cbn [mbind option_bind].
  rewrite store_is_Some by (by rewrite length_insert). cbn [mbind option_bind].
  thread_step. rewrite alone_AtEnd by done.
  rewrite !list_insert_insert_eq, !retire_fetch_sub. done.
Qed.

(** A schedule that only ever names the single thread of the system is
    that thread running alone. *)
Lemma interleave_alone (ticker : string) (n : nat) (th : Threads.Thread)
    (ob : OrderBook) :
  Threads.interleave ticker (replicate n 0%nat) [th] ob
  = (λ '(th', ob', fills), ([th'], ob', fills))
      <$> Threads.alone ticker n th ob.
Proof.
  revert th ob. induction n as [|n IH]; intros th ob; [done|].
  rewrite alone_S. cbn [replicate Threads.interleave lookup list_lookup].
  cbn [mbind option_bind].
  destruct (Threads.step ticker th ob) as [[[th1 ob1] fills1]|];
    cbn [mbind option_bind fmap option_fmap option_map]; [|done].
  cbn [insert list_insert]. rewrite IH.
  by destruct (Threads.alone ticker n th1 ob1) as [[[th2 ob2] fills2]|].
Qed.

(** When the second thread starts after the first has finished, the pair
    is filled once and both orders are retired. *)
Lemma serial_match_single_fill :
  ∃ threads ob fills,
    Threads.interleave "AAPL" Threads.serial
      [Threads.start; Threads.start] Threads.race_book
      = Some (threads, ob, fills) ∧
    Threads.pc <$> threads = [Threads.AtEnd; Threads.AtEnd] ∧
    fills = [mkFill "AAPL" 100 50 50] ∧
    load (buyOrders ob) 0 = Some (mkOrder false true 0 50) ∧
    load (sellOrders ob) 0 = Some (mkOrder false false 0 50).
Proof.
  destruct (Threads.interleave "AAPL" Threads.serial
              [Threads.start; Threads.start] Threads.race_book)
    as [[[threads ob] fills]|] eqn:Hrun; vm_compute in Hrun; [|done].
  injection Hrun as <- <- <-.
  eexists _, _, _. split; [done|]. split_and!; by vm_compute.
Qed.

(** C10 at the failing input: two threads call [matchOrder] on the book
    with one buy of 100 at 50 and one sell of 100 at 50 and advance in
    lockstep.  Both read the quantities 100 and 100 before either
    subtracts, both subtract 100 from both orders and both print a fill of
    100: two fills that sum to 200.  The quantities end at -100, which is
    not 0, so neither order is marked inactive. *)
Theorem concurrent_match_double_fill :
  run_book "AAPL" [Add "Buy" 100 50; Add "Sell" 100 50] OrderBook_init
  = Some (Threads.race_book, []) ∧
  ∃ threads ob fills,
    Threads.interleave "AAPL" Threads.lockstep
      [Threads.start; Threads.start] Threads.race_book
      = Some (threads, ob, fills) ∧
    Threads.pc <$> threads = [Threads.AtEnd; Threads.AtEnd] ∧
    fills = [mkFill "AAPL" 100 50 50; mkFill "AAPL" 100 50 50] ∧
    total_matched fills = 200 ∧
    load (buyOrders ob) 0 = Some (mkOrder true true (-100) 50) ∧
    load (sellOrders ob) 0 = Some (mkOrder true false (-100) 50).
Proof.
  split; [exact race_book_reached|].
  destruct (Threads.interleave "AAPL" Threads.lockstep
              [Threads.start; Threads.start] Threads.race_book)
    as [[[threads ob] fills]|] eqn:Hrun; vm_compute in Hrun; [|done].
  injection Hrun as <- <- <-.
  eexists _, _, _. split; [done|]. split_and!; by vm_compute.
Qed.

(** * Further properties of the code *)

(** ** hashTicker: overflow of the accumulator *)

Lemma polynomial_hash_congruent (ticker : string) (h1 h2 : Z) :
  h1 mod 2 ^ 32 = h2 mod 2 ^ 32 →
  polynomial_hash h1 ticker mod 2 ^ 32 = polynomial_hash h2 ticker mod 2 ^ 32.
Proof.
  revert h1 h2. induction ticker as [|c rest IH]; intros h1 h2 Hh; simpl.
  - done.
  - apply IH.
    rewrite (Z.add_mod (h1 * 31)), (Z.add_mod (h2 * 31)) by lia.
    rewrite (Z.mul_mod h1), (Z.mul_mod h2) by lia. by rewrite Hh.
Qed.

Lemma hashTicker_loop_congruent (ticker : string) (h : Z) :
  hashTicker_loop h ticker mod 2 ^ 32 = polynomial_hash h ticker mod 2 ^ 32.
Proof.
  revert h. induction ticker as [|c rest IH]; intros h; simpl.
  - done.
  - rewrite IH. apply polynomial_hash_congruent.
    unfold uint_wrap. apply Z.mod_mod. lia.
Qed.

(** X1: the wrap-around of the 32-bit accumulator never shows in the
    bucket: [hashTicker] is the base-31 polynomial of the characters,
    computed without overflow, modulo [MAX_TICKERS]. *)
Theorem hashTicker_ignores_overflow (ticker : string) :
  hashTicker ticker = polynomial_hash 0 ticker mod MAX_TICKERS.
Proof.
  unfold hashTicker, MAX_TICKERS.
  assert (∀ z, z mod 1024 = (z mod 2 ^ 32) mod 1024) as Hdiv.
  { intros z. symmetry. apply Z.mod_mod_divide. exists (2 ^ 22). lia. }
  rewrite (Hdiv (hashTicker_loop 0 ticker)), (Hdiv (polynomial_hash 0 ticker)).
  by rewrite hashTicker_loop_congruent.
Qed.

(** ** Calls and the book they are routed to *)

(** Every call reads the book at the bucket of its ticker, acts on it and
    writes it back. *)
Lemma call_inv (c : Call) (books books1 : list OrderBook) (fills1 : list Fill) :
  call c books = Some (books1, fills1) →
  ∃ ob ob1,
    load books (hashTicker (call_ticker c)) = Some ob ∧
    call_book c ob = Some (ob1, fills1) ∧
    books1 = <[Z.to_nat (hashTicker (call_ticker c)) := ob1]> books.
Proof.
  destruct c as [orderType ticker q p|ticker]; simpl.
  - unfold addOrder.
    destruct (load books (hashTicker ticker)) as [ob|] eqn:Hl;
      cbn [mbind option_bind]; [|done].
    destruct (addOrder_book orderType q p ob) as [ob1|] eqn:Ha;
      cbn [mbind option_bind]; [|done].
    destruct (store books (hashTicker ticker) ob1) as [books'|] eqn:Hs;
      cbn [mbind option_bind]; [|done].
    intros [= <- <-]. apply store_Some in Hs as [_ ->].
    exists ob, ob1. by rewrite Ha.
  - unfold matchOrder.
    destruct (load books (hashTicker ticker)) as [ob|] eqn:Hl;
      cbn [mbind option_bind]; [|done].
    destruct (matchOrder_book ticker ob) as [[ob1 f]|] eqn:Hm;
      cbn [mbind option_bind]; [|done].
    destruct (store books (hashTicker ticker) ob1) as [books'|] eqn:Hs;
      cbn [mbind option_bind]; [|done].
    intros [= <- <-]. apply store_Some in Hs as [_ ->].
    exists ob, ob1. by rewrite Hm.
Qed.

Lemma call_intro (c : Call) (books : list OrderBook) (ob ob1 : OrderBook)
    (fills1 : list Fill) :
  load books (hashTicker (call_ticker c)) = Some ob →
  call_book c ob = Some (ob1, fills1) →
  call c books
  = Some (<[Z.to_nat (hashTicker (call_ticker c)) := ob1]> books, fills1).
Proof.
  intros Hl Hc. pose proof (load_lt _ _ _ Hl) as Hi.
  destruct c as [orderType ticker q p|ticker]; simpl in *.
  - unfold addOrder. rewrite Hl. cbn [mbind option_bind].
    destruct (addOrder_book orderType q p ob) as [ob'|];
      cbn [mbind option_bind] in *; [|done].
    injection Hc as <- <-. by rewrite store_is_Some.
  - unfold matchOrder. rewrite Hl. cbn [mbind option_bind].
    destruct (matchOrder_book ticker ob) as [[ob' f]|];
      cbn [mbind option_bind] in *; [|done].
    injection Hc as <- <-. by rewrite store_is_Some.
Qed.

Lemma load_insert_ne {A : Type} (a : list A) (i j : Z) (x : A) :
  0 <= i → i ≠ j → load (<[Z.to_nat i := x]> a) j = load a j.
Proof.
  intros Hi Hne. unfold load. destruct (Z.leb_spec 0 j); [|done].
  apply list_lookup_insert_ne. lia.
Qed.

(** The fills of a call carry the ticker of the call. *)
Lemma call_book_fill_ticker (c : Call) (ob ob1 : OrderBook) (fills1 : list Fill) :
  call_book c ob = Some (ob1, fills1) →
  Forall (λ f, fillTicker f = call_ticker c) fills1.
Proof.
  destruct c as [orderType ticker q p|ticker]; simpl.
  - destruct (addOrder_book orderType q p ob); simpl; [|done].
    by intros [= <- <-].
  - destruct (matchOrder_book ticker ob) as [[ob' f]|] eqn:Hm; simpl; [|done].
    intros [= <- <-]. apply matchOrder_book_outcome in Hm.
    destruct Hm; simpl; by repeat constructor.
Qed.

Lemma fills_of_bucket_app (j : Z) (fs1 fs2 : list Fill) :
  fills_of_bucket j (fs1 ++ fs2) = fills_of_bucket j fs1 ++ fills_of_bucket j fs2.
Proof.
  induction fs1 as [|f fs1 IH]; simpl; [done|].
  destruct (_ =? j); simpl; by rewrite IH.
Qed.

Lemma fills_of_bucket_all (j : Z) (ticker : string) (fills : list Fill) :
  hashTicker ticker = j → Forall (λ f, fillTicker f = ticker) fills →
  fills_of_bucket j fills = fills.
Proof.
  intros Hj. induction 1 as [|f fs Hf _ IH]; simpl; [done|].
  rewrite Hf, IH. by destruct (Z.eqb_spec (hashTicker ticker) j).
Qed.

Lemma fills_of_bucket_none (j : Z) (ticker : string) (fills : list Fill) :
  hashTicker ticker ≠ j → Forall (λ f, fillTicker f = ticker) fills →
  fills_of_bucket j fills = [].
Proof.
  intros Hj. induction 1 as [|f fs Hf _ IH]; simpl; [done|].
  rewrite Hf, IH. by destruct (Z.eqb_spec (hashTicker ticker) j).
Qed.

(** The book of a bucket goes through the calls routed to it. *)
Lemma run_bucket_spec (calls : list Call) (books books' : list OrderBook)
    (fills : list Fill) (j : Z) (ob : OrderBook) :
  run calls books = Some (books', fills) →
  load books j = Some ob →
  ∃ ob',
    run_bucket j calls ob = Some (ob', fills_of_bucket j fills) ∧
    load books' j = Some ob' ∧
    length books' = length books.
Proof.
  revert books fills ob.
  induction calls as [|c calls IH]; intros books fills ob Hrun Hl.
  - injection Hrun as <- <-. by exists ob.
  - cbn [run] in Hrun.
    destruct (call c books) as [[books1 fills1]|] eqn:Hc;
      cbn [mbind option_bind] in Hrun; [|done].
    destruct (run calls books1) as [[books2 fills2]|] eqn:Hr;
      cbn [mbind option_bind] in Hrun; [|done].
    injection Hrun as <- <-.
    apply call_inv in Hc as (ob0 & ob1 & Hl0 & Hcb & ->).
    pose proof (load_lt _ _ _ Hl0) as Hi.
    pose proof (call_book_fill_ticker _ _ _ _ Hcb) as Hft.
    rewrite fills_of_bucket_app. cbn [run_bucket].
    destruct (Z.eqb_spec (hashTicker (call_ticker c)) j) as [Hj|Hj].
    + subst j. rewrite Hl in Hl0. injection Hl0 as <-.
      rewrite Hcb. cbn [mbind option_bind].
      destruct (IH _ _ ob1 Hr) as (ob' & Hrb & Hl' & Hlen).
      { by apply load_insert_eq. }
      exists ob'. rewrite Hrb. cbn [mbind option_bind].
      rewrite (fills_of_bucket_all _ (call_ticker c) fills1) by done.
      split; [done|]. split; [done|]. by rewrite Hlen, length_insert.
    + destruct (IH _ _ ob Hr) as (ob' & Hrb & Hl' & Hlen).
      { rewrite load_insert_ne by (done || lia). done. }
      exists ob'. rewrite Hrb.
      rewrite (fills_of_bucket_none _ (call_ticker c) fills1) by done.
      split; [done|]. split; [done|]. by rewrite Hlen, length_insert.
Qed.


Lemma run_bucket_untouched (j : Z) (calls : list Call) (ob : OrderBook) :
  Forall (λ c, hashTicker (call_ticker c) ≠ j) calls →
  run_bucket j calls ob = Some (ob, []).
Proof.
  induction 1 as [|c calls Hc _ IH]; simpl; [done|].
  by destruct (Z.eqb_spec (hashTicker (call_ticker c)) j).
Qed.

(** X2: the book of every bucket goes through exactly the calls whose
    ticker hashes to it, in their order, whatever is called in between for
    other buckets; the fills printed for its tickers are the fills of those
    calls, and the array keeps its length.  A bucket no call is routed to
    keeps its book and has no fill printed. *)
Theorem run_by_bucket (calls : list Call) (books books' : list OrderBook)
    (fills : list Fill) (j : Z) (ob : OrderBook) :
  run calls books = Some (books', fills) →
  load books j = Some ob →
  (∃ ob',
     run_bucket j calls ob = Some (ob', fills_of_bucket j fills) ∧
     load books' j = Some ob') ∧
  length books' = length books ∧
  (Forall (λ c, hashTicker (call_ticker c) ≠ j) calls →
   load books' j = Some ob ∧ fills_of_bucket j fills = []).
Proof.
  intros Hrun Hl.
  destruct (run_bucket_spec _ _ _ _ _ _ Hrun Hl) as (ob' & Hrb & Hl' & Hlen).
  split; [by exists ob'|]. split; [done|].
  intros Hnone. rewrite (run_bucket_untouched _ _ _ Hnone) in Hrb.
  by injection Hrb as <- <-.
Qed.

(** The two insertions of the partial-fill scenario, as calls. *)
Lemma partial_fill_calls_run :
  run [CallAdd "Buy" "AAPL" 300 60; CallAdd "Sell" "AAPL" 100 55] orderBooks_init
  = Some (<[Z.to_nat (hashTicker "AAPL") := partial_fill_book]> orderBooks_init, []).
Proof.
  etrans;
    [exact (run_on_ticker "AAPL" [Add "Buy" 300 60; Add "Sell" 100 55]
              orderBooks_init OrderBook_init (load_orderBooks_init "AAPL"))|].
  by rewrite partial_fill_book_reached.
Qed.

Lemma run_by_bucket_witness :
  let calls := [CallAdd "Buy" "AAPL" 300 60; CallAdd "Sell" "AAPL" 100 55] in
  let books' := <[Z.to_nat (hashTicker "AAPL") := partial_fill_book]> orderBooks_init in
  (∃ ob',
     run_bucket (hashTicker "AAPL") calls OrderBook_init
       = Some (ob', fills_of_bucket (hashTicker "AAPL") []) ∧
     load books' (hashTicker "AAPL") = Some ob') ∧
  length books' = length orderBooks_init ∧
  (Forall (λ c, hashTicker (call_ticker c) ≠ hashTicker "AAPL") calls →
   load books' (hashTicker "AAPL") = Some OrderBook_init ∧
   fills_of_bucket (hashTicker "AAPL") [] = []).
Proof.
  intros calls books'.
  apply (run_by_bucket calls orderBooks_init).
  - apply partial_fill_calls_run.
  - apply load_orderBooks_init.
Defined.

(** ** simulateOrders *)

Lemma numTickers_eq : numTickers = 8.
Proof. done. Qed.

(** The index drawn for the ticker always lies inside [tickers]. *)
Lemma simulated_ticker (r : Z) :
  0 <= r →
  ∃ ticker, load tickers (Z.rem r numTickers) = Some ticker ∧ ticker ∈ tickers.
Proof.
  intros Hr. rewrite numTickers_eq.
  pose proof (Z.rem_bound_pos r 8 Hr ltac:(lia)) as Hb.
  destruct (load_is_Some tickers (Z.rem r 8)) as [ticker Hl];
    [simpl; lia|].
  exists ticker. split; [done|].
  apply load_Some in Hl as [_ Hl]. by apply list_elem_of_lookup_2 in Hl.
Qed.

(** The quantity and the price drawn are those the comments of the source
    announce: between 1 and 1000, and between 10 and 500. *)
Lemma simulated_quantity (r : Z) : 0 <= r → 1 <= Z.rem r 1000 + 1 <= 1000.
Proof. intros Hr. pose proof (Z.rem_bound_pos r 1000 Hr ltac:(lia)). lia. Qed.

Lemma simulated_price (r : Z) : 0 <= r → 10 <= Z.rem r 491 + 10 <= 500.
Proof. intros Hr. pose proof (Z.rem_bound_pos r 491 Hr ltac:(lia)). lia. Qed.

(** One thread of the simulation is the run of the calls it draws. *)
Lemma simulateOrders_run (rand : nat → Z) (k n : nat) (books : list OrderBook) :
  (∀ i, 0 <= rand i) →
  simulateOrders rand k n books = run (simulated_calls rand k n) books.
Proof.
  intros Hrand. revert k books. induction n as [|n IH]; intros k books; [done|].
  cbn [simulateOrders simulated_calls run call].
  destruct (simulated_ticker (rand (k + 1)%nat) (Hrand _)) as (ticker & -> & _).
  cbn [mbind option_bind default from_option id].
  destruct (addOrder _ ticker _ _ books) as [books1|];
    cbn [mbind option_bind]; [|done].
  destruct (matchOrder ticker books1) as [[books2 f]|];
    cbn [mbind option_bind]; [|done].
  rewrite IH.
  destruct (run (simulated_calls rand (k + 4) n) books2) as [[books3 fills]|];
    cbn [mbind option_bind]; done.
Qed.

Lemma simulated_calls_tickers (rand : nat → Z) (k n : nat) :
  (∀ i, 0 <= rand i) →
  Forall (λ c, call_ticker c ∈ tickers) (simulated_calls rand k n).
Proof.
  intros Hrand. revert k. induction n as [|n IH]; intros k; simpl; [done|].
  destruct (simulated_ticker (rand (k + 1)%nat) (Hrand _)) as (ticker & -> & Hin).
  cbn [default from_option id].
  constructor; [done|]. constructor; [done|]. apply IH.
Qed.

(** No two tickers of the simulation share a bucket. *)
Lemma tickers_buckets_distinct (t1 t2 : string) :
  t1 ∈ tickers → t2 ∈ tickers → hashTicker t1 = hashTicker t2 → t1 = t2.
Proof.
  unfold tickers. intros H1 H2.
  repeat (apply elem_of_cons in H1 as [->|H1]); [..|by apply elem_of_nil in H1];
    repeat (apply elem_of_cons in H2 as [->|H2]); try (by apply elem_of_nil in H2);
    try done; by vm_compute.
Qed.

(** When, among the tickers called, only [ticker] hashes to its bucket, the
    calls routed to the bucket are the operations made under [ticker]. *)
Lemma run_bucket_ticker (ticker : string) (calls : list Call) (ob : OrderBook) :
  Forall (λ c, hashTicker (call_ticker c) = hashTicker ticker →
               call_ticker c = ticker) calls →
  run_bucket (hashTicker ticker) calls ob = run_book ticker (ops_of ticker calls) ob.
Proof.
  intros Hall. revert ob. induction Hall as [|c calls Hc _ IH]; intros ob; [done|].
  cbn [run_bucket ops_of].
  destruct (Z.eqb_spec (hashTicker (call_ticker c)) (hashTicker ticker)) as [He|Hne].
  - specialize (Hc He). rewrite (proj2 (String.eqb_eq _ _) Hc).
    destruct c as [orderType t q p|t]; simpl in Hc; subst t;
      cbn [run_book book_op call_book].
    + destruct (addOrder_book orderType q p ob) as [ob1|];
        cbn [mbind option_bind]; [|done].
      by rewrite IH.
    + destruct (matchOrder_book ticker ob) as [[ob1 f]|];
        cbn [mbind option_bind]; [|done].
      by rewrite IH.
  - destruct (String.eqb_spec (call_ticker c) ticker) as [Heq|_]; [|done].
    by rewrite Heq in Hne.
Qed.

(** The tickers of the fills are tickers of the calls. *)
Lemma run_fill_tickers (P : string → Prop) (calls : list Call)
    (books books' : list OrderBook) (fills : list Fill) :
  Forall (λ c, P (call_ticker c)) calls →
  run calls books = Some (books', fills) →
  Forall (λ f, P (fillTicker f)) fills.
Proof.
  intros Hall. revert books fills.
  induction Hall as [|c calls Hc _ IH]; intros books fills Hrun.
  - by injection Hrun as <- <-.
  - cbn [run] in Hrun.
    destruct (call c books) as [[books1 fills1]|] eqn:Hcall;
      cbn [mbind option_bind] in Hrun; [|done].
    destruct (run calls books1) as [[books2 fills2]|] eqn:Hr;
      cbn [mbind option_bind] in Hrun; [|done].
    injection Hrun as <- <-. apply Forall_app. split; [|by eapply IH].
    apply call_inv in Hcall as (ob & ob1 & _ & Hcb & _).
    apply call_book_fill_ticker in Hcb.
    eapply List.Forall_impl; [|exact Hcb]. by intros f ->.
Qed.

Lemma fills_of_bucket_ticker (ticker : string) (fills : list Fill) :
  Forall (λ f, hashTicker (fillTicker f) = hashTicker ticker →
               fillTicker f = ticker) fills →
  fills_of_bucket (hashTicker ticker) fills = fills_of ticker fills.
Proof.
  induction 1 as [|f fills Hf _ IH]; simpl; [done|].
  destruct (Z.eqb_spec (hashTicker (fillTicker f)) (hashTicker ticker)) as [He|Hne].
  - rewrite (proj2 (String.eqb_eq _ _) (Hf He)). by rewrite IH.
  - destruct (String.eqb_spec (fillTicker f) ticker) as [Heq|_]; [|done].
    by rewrite Heq in Hne.
Qed.

(** X3: in one thread of the simulation the tickers do not interfere: the
    eight tickers hash to eight different buckets, so that after
    [simulateOrders] the book of each ticker is the book obtained by running
    the operations drawn for this ticker alone on an empty book, and the
    fills printed for the ticker are the fills of that run. *)
Theorem simulateOrders_by_ticker (rand : nat → Z) (k n : nat)
    (books' : list OrderBook) (fills : list Fill) (ticker : string) :
  (∀ i, 0 <= rand i) → ticker ∈ tickers →
  simulateOrders rand k n orderBooks_init = Some (books', fills) →
  ∃ ob',
    run_book ticker (ops_of ticker (simulated_calls rand k n)) OrderBook_init
      = Some (ob', fills_of ticker fills) ∧
    load books' (hashTicker ticker) = Some ob'.
Proof.
  intros Hrand Hin Hsim. rewrite simulateOrders_run in Hsim by done.
  pose proof (simulated_calls_tickers rand k n Hrand) as Hcalls.
  destruct (run_bucket_spec _ _ _ _ _ _ Hsim (load_orderBooks_init ticker))
    as (ob' & Hrb & Hl' & _).
  exists ob'. split; [|done].
  rewrite run_bucket_ticker in Hrb.
  - rewrite Hrb. f_equal. f_equal. apply fills_of_bucket_ticker.
    eapply List.Forall_impl; [|exact (run_fill_tickers (λ t, t ∈ tickers) _ _ _ _ Hcalls Hsim)].
    intros f Hf. by apply tickers_buckets_distinct.
  - eapply List.Forall_impl; [|exact Hcalls].
    intros c Hc. by apply tickers_buckets_distinct.
Qed.

(** The round of the simulation in which every call of [rand] returns 0. *)
Lemma simulateOrders_zero_draw :
  simulateOrders (λ _, 0) 0 1 orderBooks_init
  = Some (<[Z.to_nat (hashTicker "AAPL") := zero_draw_book]> orderBooks_init, []).
Proof.
  rewrite simulateOrders_run by done.
  etrans;
    [exact (run_on_ticker "AAPL" [Add "Buy" 1 10; Match]
              orderBooks_init OrderBook_init (load_orderBooks_init "AAPL"))|].
  assert (run_book "AAPL" [Add "Buy" 1 10; Match] OrderBook_init
          = Some (zero_draw_book, [])) as -> by (by vm_compute).
  done.
Qed.

Lemma simulateOrders_by_ticker_witness :
  ∃ ob',
    run_book "AAPL" (ops_of "AAPL" (simulated_calls (λ _, 0) 0 1)) OrderBook_init
      = Some (ob', fills_of "AAPL" []) ∧
    load (<[Z.to_nat (hashTicker "AAPL") := zero_draw_book]> orderBooks_init)
         (hashTicker "AAPL") = Some ob'.
Proof.
  apply (simulateOrders_by_ticker (λ _, 0) 0 1).
  - intros i. lia.
  - apply list_elem_of_here.
  - apply simulateOrders_zero_draw.
Defined.

(** ** Edge cases of the two operations *)

(** X4: an order type that is neither "Buy" nor "Sell" (the comparison is
    exact, so "buy" is one) is ignored without a trace: [addOrder] returns
    and the books are what they were. *)
Theorem addOrder_unknown_type_ignored (orderType ticker : string)
    (quantity price : Z) (books : list OrderBook) :
  orderType ≠ "Buy" → orderType ≠ "Sell" →
  Z.of_nat (length books) = MAX_TICKERS →
  addOrder orderType ticker quantity price books = Some books.
Proof.
  intros Hb Hs Hlen. pose proof (hashTicker_range ticker) as Hr.
  destruct (load_is_Some books (hashTicker ticker)) as [ob Hl]; [lia|].
  unfold addOrder. rewrite Hl. cbn [mbind option_bind].
  rewrite addOrder_book_other by done. cbn [mbind option_bind].
  rewrite store_is_Some by lia. f_equal.
  apply list_insert_id. by apply load_Some in Hl as [_ ?].
Qed.

Lemma addOrder_unknown_type_ignored_witness :
  addOrder "buy" "AAPL" 10 50 orderBooks_init = Some orderBooks_init.
Proof.
  apply addOrder_unknown_type_ignored.
  - discriminate.
  - discriminate.
  - unfold orderBooks_init. rewrite length_replicate. reflexivity.
Defined.

(** X5: [matchOrder] for a ticker one of whose sides has never received an
    order returns without a fill and leaves the books as they were. *)
Theorem matchOrder_empty_side (ticker : string) (books : list OrderBook)
    (ob : OrderBook) :
  load books (hashTicker ticker) = Some ob →
  (buyCount ob = 0 ∧ sellCount ob <= Z.of_nat (length (sellOrders ob))) ∨
  (sellCount ob = 0 ∧ buyCount ob <= Z.of_nat (length (buyOrders ob))) →
  matchOrder ticker books = Some (books, None).
Proof.
  intros Hl Hside.
  assert (matchOrder_book ticker ob = Some (ob, None)) as Hm.
  { unfold matchOrder_book. destruct Hside as [[Hb Hs]|[Hs Hb]].
    - rewrite Hb. change (Z.to_nat 0) with 0%nat.
      cbn [scanBuy mbind option_bind].
      destruct (scanSell_total (sellOrders ob) (Z.to_nat (sellCount ob))
                  0 (-1) 1000000) as [[si sp] ->]; [lia..|].
      done.
    - rewrite Hs.
      destruct (scanBuy_total (buyOrders ob) (Z.to_nat (buyCount ob))
                  0 (-1) 0) as [[bi bp] ->]; [lia..|].
      change (Z.to_nat 0) with 0%nat. cbn [scanSell mbind option_bind].
      change (-1 =? -1) with true. cbn [negb]. by rewrite andb_false_r. }
  rewrite (matchOrder_on_book _ _ _ _ _ Hl Hm). f_equal. f_equal.
  apply list_insert_id. by apply load_Some in Hl as [_ ?].
Qed.

Lemma matchOrder_empty_side_witness :
  matchOrder "AAPL"
    (<[Z.to_nat (hashTicker "AAPL") := zero_draw_book]> orderBooks_init)
  = Some (<[Z.to_nat (hashTicker "AAPL") := zero_draw_book]> orderBooks_init, None).
Proof.
  apply (matchOrder_empty_side "AAPL" _ zero_draw_book).
  - apply load_insert_orderBooks_init.
  - right. split; [reflexivity|]. vm_compute. discriminate.
Defined.

(** ** Invariants of the books *)

Lemma addOrder_book_outcome (orderType : string) (quantity price : Z)
    (ob ob' : OrderBook) :
  addOrder_book orderType quantity price ob = Some ob' →
  add_outcome orderType quantity price ob ob'.
Proof.
  unfold addOrder_book.
  destruct (String.eqb_spec orderType "Buy") as [->|Hnb];
    [|destruct (String.eqb_spec orderType "Sell") as [->|Hns]].
  - cbn [buyOrders buyCount sellOrders sellCount].
    destruct (Z.leb_spec MAX_ORDERS_PER_SIDE (buyCount ob)) as [Hge|Hlt].
    + intros [= <-]. by apply add_buy_dropped.
    + destruct (store _ _ _) as [buys|] eqn:Hs; cbn [mbind option_bind]; [|done].
      intros [= <-]. apply store_Some in Hs as [Hi ->].
      apply add_buy_stored; [done|lia..].
  - cbn [buyOrders buyCount sellOrders sellCount].
    destruct (Z.leb_spec MAX_ORDERS_PER_SIDE (sellCount ob)) as [Hge|Hlt].
    + intros [= <-]. by apply add_sell_dropped.
    + destruct (store _ _ _) as [sells|] eqn:Hs; cbn [mbind option_bind]; [|done].
      intros [= <-]. apply store_Some in Hs as [Hi ->].
      apply add_sell_stored; [done|lia..].
  - intros [= <-]. by apply add_ignored.
Qed.

(** A property of books that every call keeps on the book it is routed to
    holds of all books after a run, and a property of the fills of every
    call holds of all fills of the run. *)
Lemma run_invariant (P : OrderBook → Prop) (C : Call → Prop) (Q : Fill → Prop)
    (calls : list Call) (books books' : list OrderBook) (fills : list Fill) :
  (∀ c ob ob' fs, C c → P ob → call_book c ob = Some (ob', fs) →
                  P ob' ∧ Forall Q fs) →
  Forall C calls → Forall P books →
  run calls books = Some (books', fills) →
  Forall P books' ∧ Forall Q fills.
Proof.
  intros Hstep Hcalls. revert books fills.
  induction Hcalls as [|c calls Hc _ IH]; intros books fills HP Hrun.
  - injection Hrun as <- <-. by split.
  - cbn [run] in Hrun.
    destruct (call c books) as [[books1 fills1]|] eqn:Hcall;
      cbn [mbind option_bind] in Hrun; [|done].
    destruct (run calls books1) as [[books2 fills2]|] eqn:Hr;
      cbn [mbind option_bind] in Hrun; [|done].
    injection Hrun as <- <-.
    apply call_inv in Hcall as (ob & ob1 & Hl & Hcb & ->).
    assert (P ob) as Hob.
    { apply load_Some in Hl as [_ Hl].
      exact (proj1 (Forall_lookup _ _) HP _ _ Hl). }
    destruct (Hstep _ _ _ _ Hc Hob Hcb) as [Hob1 Hfs1].
    destruct (IH (<[Z.to_nat (hashTicker (call_ticker c)) := ob1]> books) fills2)
      as [HP2 Hfs2]; [by apply Forall_insert|done|].
    split; [done|]. by apply Forall_app.
Qed.

Lemma book_typed_init : Forall book_typed orderBooks_init.
Proof.
  apply Forall_replicate. pose proof OrderBook_init_ok as [_ _ _ _ Hb Hs].
  split_and!; try done; by vm_compute.
Qed.

(** Calls with [int] arguments keep [int]s in every field. *)
Lemma call_book_typed (c : Call) (ob ob' : OrderBook) (fs : list Fill) :
  call_int c → book_typed ob → call_book c ob = Some (ob', fs) → book_typed ob'.
Proof.
  intros Hc (Hbi & Hsi & Hbc & Hsc) Hcb.
  destruct c as [orderType ticker q p|ticker]; simpl in *.
  - destruct (addOrder_book orderType q p ob) as [ob1|] eqn:Ha;
      cbn [mbind option_bind] in Hcb; [|done].
    injection Hcb as <- <-. apply addOrder_book_outcome in Ha.
    destruct Hc as [Hq _].
    destruct Ha; split_and!; cbn [buyOrders sellOrders buyCount sellCount];
      try done; try apply is_int_wrap; by apply int_orders_insert.
  - destruct (matchOrder_book ticker ob) as [[ob1 f]|] eqn:Hm;
      cbn [mbind option_bind] in Hcb; [|done].
    injection Hcb as <- <-. apply matchOrder_book_outcome in Hm.
    destruct Hm as [_|i j b s Hb Hs Hle m]; [done|].
    split_and!; cbn [buyOrders sellOrders buyCount sellCount]; try done;
      apply int_orders_insert; try done; apply is_int_wrap.
Qed.

Lemma tidy_fill_order (o : Order) (m : Z) :
  is_int (quantity o) → live o = true → 0 < m <= quantity o →
  tidy (fill_order o m).
Proof.
  intros Hi Hv Hm. rewrite fill_order_exact by done.
  unfold tidy. cbn [quantity active]. split; [lia|].
  destruct (Z.eqb_spec (quantity o - m) 0), (Z.ltb_spec 0 (quantity o - m));
    done || lia.
Qed.

Lemma call_book_tidy (c : Call) (ob ob' : OrderBook) (fs : list Fill) :
  call_positive c → book_typed ob ∧ book_tidy ob →
  call_book c ob = Some (ob', fs) →
  book_typed ob' ∧ book_tidy ob'.
Proof.
  intros [Hc Hpos] [Htyped [Hbt Hst]] Hcb.
  split; [by eapply call_book_typed|].
  pose proof Htyped as (Hbi & Hsi & _).
  destruct c as [orderType ticker q p|ticker]; simpl in *.
  - destruct (addOrder_book orderType q p ob) as [ob1|] eqn:Ha;
      cbn [mbind option_bind] in Hcb; [|done].
    injection Hcb as <- <-. apply addOrder_book_outcome in Ha.
    assert (∀ side, tidy (mkOrder true side q p)) as Hnew.
    { intros side. split; simpl; [lia|]. by destruct (Z.ltb_spec 0 q); [|lia]. }
    destruct Ha; unfold book_tidy; split; cbn [buyOrders sellOrders];
      try done; by apply Forall_insert.
  - destruct (matchOrder_book ticker ob) as [[ob1 f]|] eqn:Hm;
      cbn [mbind option_bind] in Hcb; [|done].
    injection Hcb as <- <-. apply matchOrder_book_outcome in Hm.
    destruct Hm as [_|i j b s Hb Hs Hle m]; [done|].
    destruct Hb as (_ & Hlb & Hvb & _). destruct Hs as (_ & Hls & Hvs & _).
    pose proof (live_quantity _ Hvb). pose proof (live_quantity _ Hvs).
    unfold book_tidy; split; cbn [buyOrders sellOrders];
      (apply Forall_insert; [done|]); apply tidy_fill_order;
      eauto using int_orders_load; lia.
Qed.

Lemma book_tidy_init : Forall book_tidy orderBooks_init.
Proof.
  apply Forall_replicate. split; by apply Forall_replicate.
Qed.

(** From the initial books, calls with positive quantities keep every book
    typed and tidy. *)
Lemma run_tidy (calls : list Call) (books' : list OrderBook) (fills : list Fill) :
  Forall call_positive calls →
  run calls orderBooks_init = Some (books', fills) →
  Forall (λ ob, book_typed ob ∧ book_tidy ob) books'.
Proof.
  intros Hcalls Hrun.
  destruct (run_invariant (λ ob, book_typed ob ∧ book_tidy ob) call_positive
              (λ _, True) calls orderBooks_init books' fills) as [Hinv _];
    try done.
  - intros c ob0 ob1 fs Hc Hob Hcb. split; [by eapply call_book_tidy|].
    by apply Forall_true.
  - apply Forall_lookup. intros k ob0 Hk. split.
    + exact (proj1 (Forall_lookup _ _) book_typed_init _ _ Hk).
    + exact (proj1 (Forall_lookup _ _) book_tidy_init _ _ Hk).
Qed.

(** X6: starting from the initial books, as long as orders are inserted
    with positive quantities, one thread never draws a quantity below zero,
    and the flag of every slot tells whether quantity is left: a slot is
    active exactly when its quantity is positive. *)
Theorem quantities_never_negative (calls : list Call)
    (books' : list OrderBook) (fills : list Fill) :
  Forall call_positive calls →
  run calls orderBooks_init = Some (books', fills) →
  ∀ j ob i o,
    load books' j = Some ob →
    load (buyOrders ob) i = Some o ∨ load (sellOrders ob) i = Some o →
    0 <= quantity o ∧ active o = (0 <? quantity o).
Proof.
  intros Hcalls Hrun j ob i o Hl Hlo.
  pose proof (run_tidy _ _ _ Hcalls Hrun) as Hinv.
  apply load_Some in Hl as [_ Hl].
  destruct (proj1 (Forall_lookup _ _) Hinv _ _ Hl) as [_ [Hbt Hst]].
  destruct Hlo as [Hlo|Hlo]; apply load_Some in Hlo as [_ Hlo].
  - exact (proj1 (Forall_lookup _ _) Hbt _ _ Hlo).
  - exact (proj1 (Forall_lookup _ _) Hst _ _ Hlo).
Qed.

Lemma quantities_never_negative_witness :
  0 <= quantity (mkOrder true true 300 60) ∧
  active (mkOrder true true 300 60) = (0 <? quantity (mkOrder true true 300 60)).
Proof.
  apply (quantities_never_negative
           [CallAdd "Buy" "AAPL" 300 60; CallAdd "Sell" "AAPL" 100 55]
           (<[Z.to_nat (hashTicker "AAPL") := partial_fill_book]> orderBooks_init)
           [] ltac:(repeat constructor; by vm_compute) partial_fill_calls_run
           (hashTicker "AAPL") partial_fill_book 0 (mkOrder true true 300 60)).
  - apply load_insert_orderBooks_init.
  - left. reflexivity.
Defined.

(** ** Orders once inserted *)

Lemma order_after_refl (o : Order) : order_after o o.
Proof. by split_and!. Qed.

Lemma order_after_trans (o1 o2 o3 : Order) :
  order_after o1 o2 → order_after o2 o3 → order_after o1 o3.
Proof.
  intros (Hp1 & Hs1 & Hq1 & Ha1 & Hl1) (Hp2 & Hs2 & Hq2 & Ha2 & Hl2).
  split_and!; try congruence; try lia; try tauto.
  intros Hl. specialize (Hl1 Hl). subst o2. by apply Hl2.
Qed.

Lemma order_after_fill (o : Order) (m : Z) :
  is_int (quantity o) → live o = true → 0 < m <= quantity o →
  order_after o (fill_order o m).
Proof.
  intros Hi Hv Hm. rewrite fill_order_exact by done.
  split_and!; cbn [price isBuy quantity active]; try done; try lia.
  - intros _. by apply live_active.
  - congruence.
Qed.

(** The counter after [fetch_add]: one more, or wrapped below zero. *)
Lemma int_wrap_succ (c : Z) :
  is_int c → int_wrap (c + 1) = c + 1 ∨ int_wrap (c + 1) < 0.
Proof.
  intros Hc. destruct (decide (c = 2 ^ 31 - 1)) as [->|Hne].
  - right. by vm_compute.
  - left. apply int_wrap_id. unfold is_int in *. lia.
Qed.

(** One call on a book: the orders already in place. *)
Lemma call_book_order_after (c : Call) (ob ob' : OrderBook) (fs : list Fill) :
  call_int c → book_typed ob → call_book c ob = Some (ob', fs) →
  (∀ i o, kept i (buyCount ob) → load (buyOrders ob) i = Some o →
          kept i (buyCount ob') ∧
          ∃ o', load (buyOrders ob') i = Some o' ∧ order_after o o') ∧
  (∀ i o, kept i (sellCount ob) → load (sellOrders ob) i = Some o →
          kept i (sellCount ob') ∧
          ∃ o', load (sellOrders ob') i = Some o' ∧ order_after o o').
Proof.
  intros Hc (Hbi & Hsi & Hbc & Hsc) Hcb.
  pose proof MAX_ORDERS_PER_SIDE_int as HMAX.
  assert (∀ i o (orders : list Order), load orders i = Some o →
            ∃ o', load orders i = Some o' ∧ order_after o o') as Hsame
    by (intros i o orders Hl; exists o; split; [done|apply order_after_refl]).
  assert (∀ i k o x (orders : list Order), 0 <= k → i < k →
            load orders i = Some o →
            ∃ o', load (<[Z.to_nat k := x]> orders) i = Some o' ∧
                  order_after o o') as Hother.
  { intros i k o x orders Hk Hik Hl. exists o.
    rewrite load_insert_ne by lia. split; [done|apply order_after_refl]. }
  assert (∀ i cnt, MAX_ORDERS_PER_SIDE <= cnt → is_int cnt → kept i cnt →
            kept i (int_wrap (cnt + 1))) as Hdrop.
  { intros i cnt Hge Hcnt [Hi Hk]. split; [done|].
    destruct (int_wrap_succ cnt Hcnt) as [->|?]; lia. }
  assert (∀ i cnt, 0 <= cnt < MAX_ORDERS_PER_SIDE → kept i cnt →
            i < cnt ∧ kept i (int_wrap (cnt + 1))) as Hstore.
  { intros i cnt Hcnt [Hi Hk]. split; [lia|]. split; [done|].
    rewrite int_wrap_id by (unfold is_int; lia). lia. }
  destruct c as [orderType ticker q p|ticker]; simpl in *.
  - destruct (addOrder_book orderType q p ob) as [ob1|] eqn:Ha;
      cbn [mbind option_bind] in Hcb; [|done].
    injection Hcb as <- <-. apply addOrder_book_outcome in Ha.
    destruct Ha as [_ Hcnt _|_ Hge|_ Hcnt _|_ Hge|_ _];
      cbn [buyOrders sellOrders buyCount sellCount];
      split; intros i o Hk Hl; eauto.
    + destruct (Hstore _ _ Hcnt Hk) as [Hlt Hk']. split; [done|].
      apply Hother; [lia|done..].
    + destruct (Hstore _ _ Hcnt Hk) as [Hlt Hk']. split; [done|].
      apply Hother; [lia|done..].
  - destruct (matchOrder_book ticker ob) as [[ob1 f]|] eqn:Hm;
      cbn [mbind option_bind] in Hcb; [|done].
    injection Hcb as <- <-. apply matchOrder_book_outcome in Hm.
    destruct Hm as [_|bi si b s Hb Hs Hle m];
      [by split; intros i o Hk Hl; (split; [done|apply Hsame])|].
    destruct Hb as (Hbr & Hlb & Hvb & _). destruct Hs as (Hsr & Hls & Hvs & _).
    pose proof (live_quantity _ Hvb). pose proof (live_quantity _ Hvs).
    cbn [buyOrders sellOrders buyCount sellCount].
    split; intros i o Hk Hl; (split; [done|]).
    + destruct (decide (i = bi)) as [->|Hne].
      * rewrite Hlb in Hl. injection Hl as <-.
        exists (fill_order b m). split.
        -- apply load_insert_eq. eauto using load_lt.
        -- apply order_after_fill; eauto using int_orders_load. lia.
      * exists o. rewrite load_insert_ne by lia.
        split; [done|apply order_after_refl].
    + destruct (decide (i = si)) as [->|Hne].
      * rewrite Hls in Hl. injection Hl as <-.
        exists (fill_order s m). split.
        -- apply load_insert_eq. eauto using load_lt.
        -- apply order_after_fill; eauto using int_orders_load. lia.
      * exists o. rewrite load_insert_ne by lia.
        split; [done|apply order_after_refl].
Qed.

(** The same along the calls routed to a bucket. *)
Lemma run_bucket_order_after (j : Z) (calls : list Call) (ob ob' : OrderBook)
    (fs : list Fill) :
  Forall call_int calls → book_typed ob →
  run_bucket j calls ob = Some (ob', fs) →
  (∀ i o, kept i (buyCount ob) → load (buyOrders ob) i = Some o →
          ∃ o', load (buyOrders ob') i = Some o' ∧ order_after o o') ∧
  (∀ i o, kept i (sellCount ob) → load (sellOrders ob) i = Some o →
          ∃ o', load (sellOrders ob') i = Some o' ∧ order_after o o').
Proof.
  intros Hcalls. revert ob fs.
  induction Hcalls as [|c calls Hc _ IH]; intros ob fs Hty Hrun.
  - injection Hrun as <- <-.
    split; intros i o _ Hl; exists o; split; done || apply order_after_refl.
  - cbn [run_bucket] in Hrun.
    destruct (hashTicker (call_ticker c) =? j); [|by eapply IH].
    destruct (call_book c ob) as [[ob1 fs1]|] eqn:Hcb;
      cbn [mbind option_bind] in Hrun; [|done].
    destruct (run_bucket j calls ob1) as [[ob2 fs2]|] eqn:Hr;
      cbn [mbind option_bind] in Hrun; [|done].
    injection Hrun as <- <-.
    destruct (call_book_order_after _ _ _ _ Hc Hty Hcb) as [Hb1 Hs1].
    destruct (IH _ _ (call_book_typed _ _ _ _ Hc Hty Hcb) Hr) as [Hb2 Hs2].
    split; intros i o Hk Hl.
    + destruct (Hb1 _ _ Hk Hl) as (Hk1 & o1 & Hl1 & Ho1).
      destruct (Hb2 _ _ Hk1 Hl1) as (o2 & Hl2 & Ho2).
      exists o2. split; [done|]. by eapply order_after_trans.
    + destruct (Hs1 _ _ Hk Hl) as (Hk1 & o1 & Hl1 & Ho1).
      destruct (Hs2 _ _ Hk1 Hl1) as (o2 & Hl2 & Ho2).
      exists o2. split; [done|]. by eapply order_after_trans.
Qed.

(** X7: an order, once inserted, keeps its slot, its side and its price
    through every later call of one thread; its quantity never grows, an
    inactive order is never active again, and an order that is not live is
    never touched again. *)
Theorem orders_only_shrink (calls : list Call) (books books' : list OrderBook)
    (fills : list Fill) (j : Z) (ob : OrderBook) :
  Forall call_int calls → Forall book_typed books →
  run calls books = Some (books', fills) →
  load books j = Some ob →
  ∃ ob',
    load books' j = Some ob' ∧
    (∀ i o, 0 <= i < buyCount ob → load (buyOrders ob) i = Some o →
            ∃ o', load (buyOrders ob') i = Some o' ∧ order_after o o') ∧
    (∀ i o, 0 <= i < sellCount ob → load (sellOrders ob) i = Some o →
            ∃ o', load (sellOrders ob') i = Some o' ∧ order_after o o').
Proof.
  intros Hcalls Hbooks Hrun Hl.
  destruct (run_bucket_spec _ _ _ _ _ _ Hrun Hl) as (ob' & Hrb & Hl' & _).
  assert (book_typed ob) as Hty.
  { apply load_Some in Hl as [_ Hl].
    exact (proj1 (Forall_lookup _ _) Hbooks _ _ Hl). }
  destruct (run_bucket_order_after _ _ _ _ _ Hcalls Hty Hrb) as [Hb Hs].
  exists ob'. split; [done|].
  split; intros i o Hi Hlo; [apply Hb|apply Hs]; try done;
    (split; [lia|left; lia]).
Qed.

Lemma orders_only_shrink_witness :
  let books := <[Z.to_nat (hashTicker "AAPL") := partial_fill_book]> orderBooks_init in
  let books' := <[Z.to_nat (hashTicker "AAPL") := partial_fill_book_after]> books in
  ∃ ob',
    load books' (hashTicker "AAPL") = Some ob' ∧
    (∀ i o, 0 <= i < buyCount partial_fill_book →
            load (buyOrders partial_fill_book) i = Some o →
            ∃ o', load (buyOrders ob') i = Some o' ∧ order_after o o') ∧
    (∀ i o, 0 <= i < sellCount partial_fill_book →
            load (sellOrders partial_fill_book) i = Some o →
            ∃ o', load (sellOrders ob') i = Some o' ∧ order_after o o').
Proof.
  intros books books'.
  apply (orders_only_shrink [CallMatch "AAPL"] books books'
           [mkFill "AAPL" 100 60 55]).
  - repeat constructor.
  - apply Forall_insert; [apply book_typed_init|].
    pose proof partial_fill_book_ok as [_ _ _ _ Hb Hs].
    split_and!; try done; by vm_compute.
  - cbn [run call].
    rewrite (matchOrder_on_book "AAPL" books partial_fill_book
               partial_fill_book_after (Some (mkFill "AAPL" 100 60 55)));
      [done|apply load_insert_orderBooks_init|apply partial_fill_book_match].
  - apply load_insert_orderBooks_init.
Defined.

(** ** The order of insertion *)

Lemma fmap_price_fill (orders : list Order) (n : nat) (i : Z) (o : Order) (m : Z) :
  load orders i = Some o →
  price <$> take n (<[Z.to_nat i := fill_order o m]> orders)
  = price <$> take n orders.
Proof.
  intros [_ Hl]%load_Some.
  rewrite !fmap_take, list_fmap_insert. f_equal.
  apply list_insert_id. by rewrite list_lookup_fmap, Hl.
Qed.

Lemma fmap_price_append (orders : list Order) (c : Z) (o : Order) :
  0 <= c < Z.of_nat (length orders) →
  price <$> take (Z.to_nat (c + 1)) (<[Z.to_nat c := o]> orders)
  = (price <$> take (Z.to_nat c) orders) ++ [price o].
Proof.
  intros Hc.
  replace (Z.to_nat (c + 1)) with (S (Z.to_nat c)) by lia.
  rewrite (take_S_r _ _ o) by (apply list_lookup_insert_eq; lia).
  rewrite take_insert_ge by lia. by rewrite fmap_app.
Qed.

Lemma prices_on_cons (side : string) (op : BookOp) (ops : list BookOp) :
  prices_on side (op :: ops) = prices_on side [op] ++ prices_on side ops.
Proof.
  destruct op as [orderType q p|]; simpl; [|done].
  by destruct (String.eqb orderType side).
Qed.

(** One operation: the prices below the counters grow by the price
    inserted. *)
Lemma book_op_prices (ticker : string) (op : BookOp) (ob : OrderBook) :
  book_ok ob → op_int op →
  buyCount ob + adds_on "Buy" [op] <= MAX_ORDERS_PER_SIDE →
  sellCount ob + adds_on "Sell" [op] <= MAX_ORDERS_PER_SIDE →
  ∃ ob' fills,
    book_op ticker op ob = Some (ob', fills) ∧ book_ok ob' ∧
    buyCount ob' = buyCount ob + adds_on "Buy" [op] ∧
    sellCount ob' = sellCount ob + adds_on "Sell" [op] ∧
    price <$> take (Z.to_nat (buyCount ob')) (buyOrders ob')
      = (price <$> take (Z.to_nat (buyCount ob)) (buyOrders ob))
        ++ prices_on "Buy" [op] ∧
    price <$> take (Z.to_nat (sellCount ob')) (sellOrders ob')
      = (price <$> take (Z.to_nat (sellCount ob)) (sellOrders ob))
        ++ prices_on "Sell" [op].
Proof.
  intros Hok Hint Hb Hs.
  destruct (book_op_effect ticker op ob Hok Hint Hb Hs)
    as (ob' & fills & Hop & Hok' & Hbc & Hsc & _ & _).
  exists ob', fills. split_and!; try done.
  - pose proof Hok as [Hbl Hsl Hbr Hsr _ _].
    destruct op as [orderType q p|]; simpl in Hop, Hb, Hs |- *.
    + destruct (String.eqb_spec orderType "Buy") as [->|Hnb];
        [|destruct (String.eqb_spec orderType "Sell") as [->|Hns]].
      * rewrite addOrder_book_buy in Hop by (done || lia).
        injection Hop as <- <-. cbn [buyOrders buyCount].
        apply fmap_price_append. lia.
      * rewrite addOrder_book_sell in Hop by (done || lia).
        injection Hop as <- <-. cbn [buyOrders buyCount].
        by rewrite app_nil_r.
      * rewrite addOrder_book_other in Hop by done.
        injection Hop as <- <-. by rewrite app_nil_r.
    + rewrite app_nil_r.
      destruct (matchOrder_book ticker ob) as [[ob1 f]|] eqn:Hm;
        cbn [mbind option_bind] in Hop; [|done].
      injection Hop as <- <-. apply matchOrder_book_outcome in Hm.
      destruct Hm as [_|i j b s Hsb Hss Hle m]; [done|].
      cbn [buyOrders buyCount]. apply fmap_price_fill. by destruct Hsb as (_ & ? & _).
  - pose proof Hok as [Hbl Hsl Hbr Hsr _ _].
    destruct op as [orderType q p|]; simpl in Hop, Hb, Hs |- *.
    + destruct (String.eqb_spec orderType "Buy") as [->|Hnb];
        [|destruct (String.eqb_spec orderType "Sell") as [->|Hns]].
      * rewrite addOrder_book_buy in Hop by (done || lia).
        injection Hop as <- <-. cbn [sellOrders sellCount].
        by rewrite app_nil_r.
      * rewrite addOrder_book_sell in Hop by (done || lia).
        injection Hop as <- <-. cbn [sellOrders sellCount].
        apply fmap_price_append. lia.
      * rewrite addOrder_book_other in Hop by done.
        injection Hop as <- <-. by rewrite app_nil_r.
    + rewrite app_nil_r.
      destruct (matchOrder_book ticker ob) as [[ob1 f]|] eqn:Hm;
        cbn [mbind option_bind] in Hop; [|done].
      injection Hop as <- <-. apply matchOrder_book_outcome in Hm.
      destruct Hm as [_|i j b s Hsb Hss Hle m]; [done|].
      cbn [sellOrders sellCount]. apply fmap_price_fill. by destruct Hss as (_ & ? & _).
Qed.

Lemma run_book_prices (ticker : string) (ops : list BookOp) (ob : OrderBook) :
  book_ok ob → Forall op_int ops →
  buyCount ob + adds_on "Buy" ops <= MAX_ORDERS_PER_SIDE →
  sellCount ob + adds_on "Sell" ops <= MAX_ORDERS_PER_SIDE →
  ∃ ob' fills,
    run_book ticker ops ob = Some (ob', fills) ∧
    price <$> take (Z.to_nat (buyCount ob')) (buyOrders ob')
      = (price <$> take (Z.to_nat (buyCount ob)) (buyOrders ob))
        ++ prices_on "Buy" ops ∧
    price <$> take (Z.to_nat (sellCount ob')) (sellOrders ob')
      = (price <$> take (Z.to_nat (sellCount ob)) (sellOrders ob))
        ++ prices_on "Sell" ops.
Proof.
  revert ob. induction ops as [|op ops IH]; intros ob Hok Hint Hb Hs.
  - exists ob, []. simpl. by rewrite !app_nil_r.
  - apply Forall_cons_1 in Hint as [Hop Hint].
    rewrite adds_on_cons in Hb, Hs.
    pose proof (adds_on_nonneg "Buy" ops). pose proof (adds_on_nonneg "Sell" ops).
    destruct (book_op_prices ticker op ob Hok Hop)
      as (ob1 & fills1 & Hop1 & Hok1 & Hbc1 & Hsc1 & Hpb1 & Hps1); [lia..|].
    destruct (IH ob1 Hok1 Hint)
      as (ob2 & fills2 & Hrun & Hpb2 & Hps2); [lia..|].
    exists ob2, (fills1 ++ fills2).
    rewrite (prices_on_cons "Buy"), (prices_on_cons "Sell"), !app_assoc.
    rewrite <- Hpb1, <- Hps1. split_and!; try done.
    cbn [run_book]. rewrite Hop1. cbn [mbind option_bind]. by rewrite Hrun.
Qed.

(** X8: the slots of a side record the insertions on that side in the
    order they were made, matches in between notwithstanding: as long as
    no side receives more than [MAX_ORDERS_PER_SIDE] orders, the prices in
    the slots below the counter are the prices of the insertions, first
    inserted first.  The lowest index among equal prices is therefore the
    earliest insertion. *)
Theorem slots_in_insertion_order (ticker : string) (ops : list BookOp) :
  Forall op_int ops →
  adds_on "Buy" ops <= MAX_ORDERS_PER_SIDE →
  adds_on "Sell" ops <= MAX_ORDERS_PER_SIDE →
  ∃ books fills ob,
    run (on_ticker ticker <$> ops) orderBooks_init = Some (books, fills) ∧
    load books (hashTicker ticker) = Some ob ∧
    price <$> take (Z.to_nat (buyCount ob)) (buyOrders ob)
      = prices_on "Buy" ops ∧
    price <$> take (Z.to_nat (sellCount ob)) (sellOrders ob)
      = prices_on "Sell" ops.
Proof.
  intros Hint Hb Hs.
  destruct (run_book_prices ticker ops OrderBook_init OrderBook_init_ok Hint)
    as (ob & fills & Hrun & Hpb & Hps); [done..|].
  exists (<[Z.to_nat (hashTicker ticker) := ob]> orderBooks_init), fills, ob.
  split; [|split].
  - rewrite (run_on_ticker _ _ _ OrderBook_init) by apply load_orderBooks_init.
    by rewrite Hrun.
  - apply load_insert_orderBooks_init.
  - by split.
Qed.

Lemma slots_in_insertion_order_witness :
  let ops := [Add "Buy" 10 50; Add "Buy" 20 40; Add "Sell" 5 50; Match;
              Add "Buy" 7 50] in
  ∃ books fills ob,
    run (on_ticker "AAPL" <$> ops) orderBooks_init = Some (books, fills) ∧
    load books (hashTicker "AAPL") = Some ob ∧
    price <$> take (Z.to_nat (buyCount ob)) (buyOrders ob)
      = prices_on "Buy" ops ∧
    price <$> take (Z.to_nat (sellCount ob)) (sellOrders ob)
      = prices_on "Sell" ops.
Proof.
  intros ops. apply (slots_in_insertion_order "AAPL" ops).
  - repeat constructor; by vm_compute.
  - vm_compute. discriminate.
  - vm_compute. discriminate.
Defined.

(** ** Calling matchOrder again and again *)










(** ** No fill beyond what was inserted *)

Lemma total_quantity_nonneg (orders : list Order) :
  Forall tidy orders → 0 <= total_quantity orders.
Proof.
  induction 1 as [|o orders [Hq _] _ IH]; unfold total_quantity in *; simpl; lia.
Qed.

Lemma on_ticker_positive (ticker : string) (ops : list BookOp) :
  Forall op_positive ops → Forall call_positive (on_ticker ticker <$> ops).
Proof.
  intros Hops. apply Forall_fmap.
  eapply List.Forall_impl; [|exact Hops]. by intros [orderType q p|] Hop.
Qed.

(** Every fill of a run has a positive quantity. *)
Lemma run_fills_positive (calls : list Call) (books books' : list OrderBook)
    (fills : list Fill) :
  run calls books = Some (books', fills) →
  Forall (λ f, 0 < matchedQuantity f) fills.
Proof.
  intros Hrun.
  apply (run_invariant (λ _, True) (λ _, True) (λ f, 0 < matchedQuantity f)
           calls books books' fills); try done; try by apply Forall_true.
  intros c ob0 ob1 fs _ _ Hcb. split; [done|].
  destruct c as [orderType t q p|t]; simpl in Hcb.
  - destruct (addOrder_book orderType q p ob0); simpl in Hcb; [|done].
    by injection Hcb as <- <-.
  - destruct (matchOrder_book t ob0) as [[ob2 f]|] eqn:Hm; simpl in Hcb; [|done].
    injection Hcb as <- <-. apply matchOrder_book_outcome in Hm.
    destruct Hm as [_|i j b s Hsb Hss Hle m]; [done|].
    destruct Hsb as (_ & _ & Hvb & _). destruct Hss as (_ & _ & Hvs & _).
    apply live_quantity in Hvb, Hvs. repeat constructor. simpl. lia.
Qed.

Lemma total_matched_nonneg (fills : list Fill) :
  Forall (λ f, 0 < matchedQuantity f) fills → 0 <= total_matched fills.
Proof.
  induction 1 as [|f fs Hf _ IH]; unfold total_matched in *; simpl; lia.
Qed.

(** X10: one thread never matches more than was inserted: as long as
    quantities are positive and no side receives more than
    [MAX_ORDERS_PER_SIDE] orders, the matched quantities reported for an
    instrument sum to at most the quantity inserted on its buy side and to
    at most the quantity inserted on its sell side. *)
Theorem never_matched_beyond_inserted (ticker : string) (ops : list BookOp) :
  Forall op_positive ops →
  adds_on "Buy" ops <= MAX_ORDERS_PER_SIDE →
  adds_on "Sell" ops <= MAX_ORDERS_PER_SIDE →
  ∃ books fills,
    run (on_ticker ticker <$> ops) orderBooks_init = Some (books, fills) ∧
    0 <= total_matched fills ∧
    total_matched fills <= inserted_on "Buy" ops ∧
    total_matched fills <= inserted_on "Sell" ops.
Proof.
  intros Hops Hb Hs.
  assert (Forall op_int ops) as Hint
    by (eapply List.Forall_impl; [|exact Hops]; by intros op [? _]).
  destruct (run_book_conservation ticker ops OrderBook_init OrderBook_init_ok Hint)
    as (ob & fills & Hrun & _ & _ & _ & Hrb & Hrs); [done..|].
  change (remaining_buy OrderBook_init) with 0 in Hrb.
  change (remaining_sell OrderBook_init) with 0 in Hrs.
  assert (run (on_ticker ticker <$> ops) orderBooks_init
          = Some (<[Z.to_nat (hashTicker ticker) := ob]> orderBooks_init, fills))
    as Hglobal.
  { rewrite (run_on_ticker _ _ _ OrderBook_init) by apply load_orderBooks_init.
    by rewrite Hrun. }
  exists (<[Z.to_nat (hashTicker ticker) := ob]> orderBooks_init), fills.
  split; [done|].
  pose proof (run_tidy _ _ _ (on_ticker_positive ticker ops Hops) Hglobal) as Hinv.
  pose proof (load_insert_orderBooks_init ticker ob) as [_ Hl]%load_Some.
  destruct (proj1 (Forall_lookup _ _) Hinv _ _ Hl) as [_ [Hbt Hst]].
  assert (0 <= remaining_buy ob) as Hnb
    by (apply total_quantity_nonneg; by apply Forall_take).
  assert (0 <= remaining_sell ob) as Hns
    by (apply total_quantity_nonneg; by apply Forall_take).
  pose proof (total_matched_nonneg _ (run_fills_positive _ _ _ _ Hglobal)).
  lia.
Qed.

Lemma never_matched_beyond_inserted_witness :
  let ops := [Add "Buy" 300 60; Add "Sell" 100 55; Match] in
  ∃ books fills,
    run (on_ticker "AAPL" <$> ops) orderBooks_init = Some (books, fills) ∧
    0 <= total_matched fills ∧
    total_matched fills <= inserted_on "Buy" ops ∧
    total_matched fills <= inserted_on "Sell" ops.
Proof.
  intros ops. apply (never_matched_beyond_inserted "AAPL" ops).
  - repeat constructor; by vm_compute.
  - vm_compute. discriminate.
  - vm_compute. discriminate.
Defined.

(** ** One thread of the simulation *)

Lemma book_within_mono (k k' : Z) (ob : OrderBook) :
  k <= k' → book_within k ob → book_within k' ob.
Proof. intros Hk (Hok & Hb & Hs). split_and!; [done|lia..]. Qed.

(** One round on the book of the ticker drawn: the insertion finds a free
    slot and the match stays inside the arrays. *)
Lemma round_book (ticker orderType : string) (quantity price k : Z)
    (ob : OrderBook) :
  book_within k ob → k < MAX_ORDERS_PER_SIDE →
  is_int quantity → is_int price →
  ∃ ob1 ob2 f,
    addOrder_book orderType quantity price ob = Some ob1 ∧
    matchOrder_book ticker ob1 = Some (ob2, f) ∧
    book_within (k + 1) ob2.
Proof.
  intros (Hok & Hb & Hs) Hk Hq Hp.
  assert (0 <= adds_on "Buy" [Add orderType quantity price] <= 1 ∧
          0 <= adds_on "Sell" [Add orderType quantity price] <= 1) as [Hab Has].
  { simpl. destruct (String.eqb orderType "Buy"), (String.eqb orderType "Sell"); lia. }
  destruct (book_op_effect ticker (Add orderType quantity price) ob Hok)
    as (ob1 & fills1 & Hadd & Hok1 & Hbc1 & Hsc1 & _); [done|lia..|].
  destruct (matchOrder_book_effect ticker ob1 Hok1)
    as (ob2 & f & Hm & Hok2 & Hbc2 & Hsc2 & _).
  exists ob1, ob2, f. simpl in Hadd.
  destruct (addOrder_book orderType quantity price ob) as [ob1'|];
    cbn [mbind option_bind] in Hadd; [|done].
  injection Hadd as -> <-.
  split; [done|]. split; [done|]. split_and!; [done|lia..].
Qed.

(** As long as fewer than [MAX_ORDERS_PER_SIDE] rounds were made, a thread
    of the simulation completes its rounds. *)
Lemma simulated_calls_run (rand : nat → Z) (n k : nat) (j : Z)
    (books : list OrderBook) :
  (∀ i, 0 <= rand i) →
  Forall (book_within j) books → Z.of_nat (length books) = MAX_TICKERS →
  j + Z.of_nat n <= MAX_ORDERS_PER_SIDE →
  ∃ books' fills,
    run (simulated_calls rand k n) books = Some (books', fills) ∧
    Forall (book_within (j + Z.of_nat n)) books' ∧
    (length fills <= n)%nat.
Proof.
  intros Hrand. revert k j books.
  induction n as [|n IH]; intros k j books Hbooks Hlen Hj.
  - exists books, []. split; [done|]. split; [|done].
    eapply List.Forall_impl; [|exact Hbooks]. intros ob. apply book_within_mono. lia.
  - cbn [simulated_calls].
    destruct (simulated_ticker (rand (k + 1)%nat) (Hrand _)) as (ticker & -> & _).
    cbn [default from_option id].
    set (orderType := if Z.rem (rand k) 2 =? 0 then "Buy" else "Sell").
    set (quantity := Z.rem (rand (k + 2)%nat) 1000 + 1).
    set (price := Z.rem (rand (k + 3)%nat) 491 + 10).
    pose proof (simulated_quantity _ (Hrand (k + 2)%nat)) as Hq.
    pose proof (simulated_price _ (Hrand (k + 3)%nat)) as Hp.
    pose proof (hashTicker_range ticker) as Hr.
    destruct (load_is_Some books (hashTicker ticker)) as [ob Hl]; [lia|].
    assert (book_within j ob) as Hob.
    { apply load_Some in Hl as [_ Hl].
      exact (proj1 (Forall_lookup _ _) Hbooks _ _ Hl). }
    destruct (round_book ticker orderType quantity price j ob Hob)
      as (ob1 & ob2 & f & Hadd & Hm & Hob2);
      [lia|unfold is_int; fold quantity in Hq; lia
          |unfold is_int; fold price in Hp; lia|].
    assert (call (CallAdd orderType ticker quantity price) books
            = Some (<[Z.to_nat (hashTicker ticker) := ob1]> books, [])) as Hc1.
    { apply (call_intro (CallAdd orderType ticker quantity price) books ob ob1);
        [done|]. simpl. by rewrite Hadd. }
    assert (call (CallMatch ticker) (<[Z.to_nat (hashTicker ticker) := ob1]> books)
            = Some (<[Z.to_nat (hashTicker ticker) := ob2]> books, option_list f))
      as Hc2.
    { rewrite (call_intro (CallMatch ticker) _ ob1 ob2 (option_list f)).
      - by rewrite list_insert_insert_eq.
      - cbn [call_ticker]. apply load_insert_eq. lia.
      - simpl. by rewrite Hm. }
    destruct (IH (k + 4)%nat (j + 1) (<[Z.to_nat (hashTicker ticker) := ob2]> books))
      as (books' & fills & Hrun & Hbooks' & Hfills).
    { apply Forall_insert; [|done].
      eapply List.Forall_impl; [|exact Hbooks].
      intros ob0. apply book_within_mono. lia. }
    { by rewrite length_insert. }
    { lia. }
    exists books', (option_list f ++ fills).
    cbn [run]. rewrite Hc1. cbn [mbind option_bind]. rewrite Hc2.
    cbn [mbind option_bind]. rewrite Hrun. cbn [mbind option_bind app].
    split; [done|]. split.
    + eapply List.Forall_impl; [|exact Hbooks'].
      intros ob0. apply book_within_mono. lia.
    + rewrite length_app. destruct f; simpl; lia.
Qed.

(** X11: a thread that simulates at most [MAX_ORDERS_PER_SIDE] orders on
    the initial books runs to its end whatever [rand] returns: every
    insertion finds a free slot, every scan stays inside its array, and at
    most one fill is printed per order. *)
Theorem simulateOrders_completes (rand : nat → Z) (k n : nat) :
  (∀ i, 0 <= rand i) → Z.of_nat n <= MAX_ORDERS_PER_SIDE →
  ∃ books' fills,
    simulateOrders rand k n orderBooks_init = Some (books', fills) ∧
    (length fills <= n)%nat ∧
    Forall (λ ob, buyCount ob <= Z.of_nat n ∧ sellCount ob <= Z.of_nat n) books'.
Proof.
  intros Hrand Hn.
  destruct (simulated_calls_run rand n k 0 orderBooks_init Hrand)
    as (books' & fills & Hrun & Hbooks' & Hfills).
  - apply Forall_replicate. split; [apply OrderBook_init_ok|]. by split.
  - unfold orderBooks_init. rewrite length_replicate. unfold MAX_TICKERS. lia.
  - lia.
  - exists books', fills. rewrite simulateOrders_run by done.
    split; [done|]. split; [done|].
    eapply List.Forall_impl; [|exact Hbooks'].
    intros ob (_ & Hb & Hs). lia.
Qed.

Lemma simulateOrders_completes_witness :
  ∃ books' fills,
    simulateOrders (λ _, 0) 0 1024 orderBooks_init = Some (books', fills) ∧
    (length fills <= 1024)%nat ∧
    Forall (λ ob, buyCount ob <= Z.of_nat 1024 ∧ sellCount ob <= Z.of_nat 1024)
           books'.
Proof.
  apply (simulateOrders_completes (λ _, 0) 0 1024).
  - intros i. lia.
  - unfold MAX_ORDERS_PER_SIDE. lia.
Defined.







(** ** The prices of the fills *)

Lemma call_prices_elem (side ticker : string) (quantity price : Z)
    (calls : list Call) :
  CallAdd side ticker quantity price ∈ calls → price ∈ call_prices side calls.
Proof.
  induction calls as [|c calls IH]; intros Hin; [by apply elem_of_nil in Hin|].
  apply elem_of_cons in Hin as [<-|Hin].
  - simpl. rewrite String.eqb_refl. apply list_elem_of_here.
  - specialize (IH Hin). destruct c as [orderType t q p|t]; simpl; [|done].
    destruct (String.eqb orderType side); [by apply list_elem_of_further|done].
Qed.

Lemma active_fill_order (o : Order) (m : Z) :
  active (fill_order o m) = true → active o = true.
Proof. unfold fill_order. simpl. by destruct (_ =? 0). Qed.

(** A call of the sequence keeps the active orders at prices inserted by
    the sequence, and its fill is at two such prices. *)
Lemma call_book_priced (calls : list Call) (c : Call) (ob ob' : OrderBook)
    (fs : list Fill) :
  c ∈ calls →
  book_priced (call_prices "Buy" calls) (call_prices "Sell" calls) ob →
  call_book c ob = Some (ob', fs) →
  book_priced (call_prices "Buy" calls) (call_prices "Sell" calls) ob' ∧
  Forall (λ f, fillBuyPrice f ∈ call_prices "Buy" calls ∧
               fillSellPrice f ∈ call_prices "Sell" calls) fs.
Proof.
  intros Hin [Hbp Hsp] Hcb.
  destruct c as [orderType ticker q p|ticker]; simpl in Hcb.
  - destruct (addOrder_book orderType q p ob) as [ob1|] eqn:Ha;
      cbn [mbind option_bind] in Hcb; [|done].
    injection Hcb as <- <-. split; [|done]. apply addOrder_book_outcome in Ha.
    destruct Ha as [-> _ _|_ _| -> _ _|_ _|_ _]; split;
      cbn [buyOrders sellOrders]; try done;
      (apply Forall_insert; [done|]); intros _; simpl;
      by eapply call_prices_elem.
  - destruct (matchOrder_book ticker ob) as [[ob1 f]|] eqn:Hm;
      cbn [mbind option_bind] in Hcb; [|done].
    injection Hcb as <- <-. apply matchOrder_book_outcome in Hm.
    destruct Hm as [_|i j b s Hb Hs Hle m]; [by split|].
    destruct Hb as (_ & Hlb & Hvb & _). destruct Hs as (_ & Hls & Hvs & _).
    assert (price b ∈ call_prices "Buy" calls) as Hpb.
    { apply load_Some in Hlb as [_ Hlb].
      exact (proj1 (Forall_lookup _ _) Hbp _ _ Hlb (live_active _ Hvb)). }
    assert (price s ∈ call_prices "Sell" calls) as Hps.
    { apply load_Some in Hls as [_ Hls].
      exact (proj1 (Forall_lookup _ _) Hsp _ _ Hls (live_active _ Hvs)). }
    split; [|by repeat constructor].
    split; cbn [buyOrders sellOrders]; (apply Forall_insert; [done|]);
      by intros _%active_fill_order.
Qed.

(** The three calls of the partial-fill scenario. *)
Lemma partial_fill_calls_match :
  run [CallAdd "Buy" "AAPL" 300 60; CallAdd "Sell" "AAPL" 100 55;
       CallMatch "AAPL"] orderBooks_init
  = Some (<[Z.to_nat (hashTicker "AAPL") := partial_fill_book_after]> orderBooks_init,
          [mkFill "AAPL" 100 60 55]).
Proof.
  etrans;
    [exact (run_on_ticker "AAPL" [Add "Buy" 300 60; Add "Sell" 100 55; Match]
              orderBooks_init OrderBook_init (load_orderBooks_init "AAPL"))|].
  assert (run_book "AAPL" [Add "Buy" 300 60; Add "Sell" 100 55; Match]
            OrderBook_init
          = Some (partial_fill_book_after, [mkFill "AAPL" 100 60 55])) as ->
    by (by vm_compute).
  done.
Qed.

(** X13: [matchOrder] never invents a price: starting from the initial
    books, the buy price of every fill is the price of a "Buy" insertion of
    the run and its sell price is the price of a "Sell" insertion of the
    run. *)
Theorem fills_at_inserted_prices (calls : list Call)
    (books' : list OrderBook) (fills : list Fill) :
  run calls orderBooks_init = Some (books', fills) →
  Forall (λ f, fillBuyPrice f ∈ call_prices "Buy" calls ∧
               fillSellPrice f ∈ call_prices "Sell" calls) fills.
Proof.
  intros Hrun.
  apply (run_invariant
           (book_priced (call_prices "Buy" calls) (call_prices "Sell" calls))
           (λ c, c ∈ calls) _ calls orderBooks_init books' fills); try done.
  - intros c ob ob' fs. apply call_book_priced.
  - apply Forall_lookup. intros i c Hc. by eapply list_elem_of_lookup_2.
  - apply Forall_replicate. split; by apply Forall_replicate.
Qed.

Lemma fills_at_inserted_prices_witness :
  let calls := [CallAdd "Buy" "AAPL" 300 60; CallAdd "Sell" "AAPL" 100 55;
                CallMatch "AAPL"] in
  Forall (λ f, fillBuyPrice f ∈ call_prices "Buy" calls ∧
               fillSellPrice f ∈ call_prices "Sell" calls)
         [mkFill "AAPL" 100 60 55].
Proof.
  intros calls. apply (fills_at_inserted_prices calls _ _ partial_fill_calls_match).
Defined.
